(** * pyaarlo orchestrator: device discovery, classification and refresh cadences

    A shallow embedding of [PyArlo] (custom_components/aarlo/pyaarlo/__init__.py):
    the device classifier of [__init__], the metadata persistence of
    [_parse_devices], the fast and slow refresh ticks, the device reload and
    [stop].  Python values become a small inductive type, dictionaries
    become finite maps, the object's attributes become a record that every
    method takes and returns, and a raised exception becomes a [Raise]
    result. *)

From stdpp Require Import gmap strings list fin_maps.
From Stdlib Require Import ZArith.

Local Open Scope Z_scope.
Local Open Scope string_scope.
Local Open Scope list_scope.

(** ** Python values *)

(** The values a decoded JSON inventory entry can hold.  The orchestrator
    only tests them against [None] and against string constants, joins
    them to a log message, and stores them; every value that is neither
    [None], a boolean, an integer nor a string (a fractional number, an
    array, a nested object) is kept opaque under [VOther]. *)
Inductive pyval : Type :=
| VNone
| VBool (b : bool)
| VInt (z : Z)
| VStr (s : string)
| VOther (tag : positive).

#[global] Instance pyval_eq_dec : EqDecision pyval.
Proof. solve_decision. Defined.

Definition pyval_enc (v : pyval) : unit + bool + Z + string + positive :=
  match v with
  | VNone => inl (inl (inl (inl tt)))
  | VBool b => inl (inl (inl (inr b)))
  | VInt z => inl (inl (inr z))
  | VStr s => inl (inr s)
  | VOther t => inr t
  end.

Definition pyval_dec (x : unit + bool + Z + string + positive) : pyval :=
  match x with
  | inl (inl (inl (inl _))) => VNone
  | inl (inl (inl (inr b))) => VBool b
  | inl (inl (inr z)) => VInt z
  | inl (inr s) => VStr s
  | inr t => VOther t
  end.

#[global] Instance pyval_countable : Countable pyval.
Proof.
  apply (inj_countable' pyval_enc pyval_dec).
  intros []; reflexivity.
Defined.

(** What a raised exception carries; only [TypeError] can arise in the
    code modelled here. *)
Inductive pyexc : Type :=
| TypeError.

Inductive result (A : Type) : Type :=
| Ok (a : A)
| Raise (e : pyexc).

Arguments Ok {A} a.
Arguments Raise {A} e.

Definition bind {A B : Type} (r : result A) (k : A → result B) : result B :=
  match r with
  | Ok a => k a
  | Raise e => Raise e
  end.

Notation "x ←! r ; k" := (bind r (fun x => k))
  (at level 100, r at next level, right associativity).

(** [a + b] where the left operand is a [str]: concatenation when the right
    operand is a [str] too, [TypeError] otherwise. *)
Definition str_add (a : string) (b : pyval) : result string :=
  match b with
  | VStr s => Ok (String.append a s)
  | _ => Raise TypeError
  end.

(** ** Raw devices *)

(** A RawDevice is the decoded JSON object of one inventory entry. *)
Abbreviation RawDevice := (gmap string pyval).

(** [device.get(key, default)]. *)
Definition get_or (device : RawDevice) (key : string) (dflt : pyval) : pyval :=
  default dflt (device !! key).

(** [device.get(key)], that is [device.get(key, None)]. *)
Definition get (device : RawDevice) (key : string) : pyval :=
  get_or device key VNone.

(** ** Collaborators *)

(** Modelled from the spec: the StateStore boundary, [set(keyPath, value)],
    [get(keyPath, default)] and [save()]; the class [ArloStorage] is not
    part of the sources at hand.  The store maps a key path to a value, a
    later [set] of a path replaces the earlier one, and [save] copies the
    in-memory contents to the durable copy. *)
Record ArloStorage : Type := mkStorage {
  db : gmap (list pyval) pyval;
  disk : gmap (list pyval) pyval
}.

Definition st_set (keys : list pyval) (value : pyval) (st : ArloStorage) : ArloStorage :=
  {| db := <[keys := value]> (db st); disk := disk st |}.

Definition st_get (keys : list pyval) (dflt : pyval) (st : ArloStorage) : pyval :=
  default dflt (db st !! keys).

Definition st_save (st : ArloStorage) : ArloStorage :=
  {| db := db st; disk := db st |}.

(** ** Metadata persistence *)

Section ParseDevices.

(** [DEVICE_KEYS] comes from the constants module. *)
Variable DEVICE_KEYS : list string.

(** The inner loop of [_parse_devices]: one device identifier, every
    tracked key. *)
Definition parse_keys (device_id : pyval) (device : RawDevice)
    (st : ArloStorage) : ArloStorage :=
  foldl (fun st key =>
           let value := get device key in
           if decide (value ≠ VNone)
           then st_set [device_id; VStr key] value st
           else st)
        st DEVICE_KEYS.

(** The body of the outer loop. *)
Definition parse_device (st : ArloStorage) (device : RawDevice) : ArloStorage :=
  let device_id := get device "deviceId" in
  if decide (device_id ≠ VNone)
  then parse_keys device_id device st
  else st.

Definition _parse_devices (devices : list RawDevice) (st : ArloStorage) : ArloStorage :=
  foldl parse_device st devices.

End ParseDevices.

(** ** Classified devices *)

(** Which of the three device classes built the record. *)
Inductive kind : Type :=
| Base
| Camera
| Doorbell.

#[global] Instance kind_eq_dec : EqDecision kind.
Proof. solve_decision. Defined.

(** Modelled from the spec: DeviceRecord, the classified entity with
    identity [deviceId], a name and a type tag; the classes [ArloBase],
    [ArloCamera] and [ArloDoorBell] are not part of the sources at hand.
    A record keeps the two arguments its constructor receives from the
    classifier, the name and the raw device. *)
Record DeviceRecord : Type := mkDevice {
  dev_kind : kind;
  name : pyval;
  attrs : RawDevice
}.

#[global] Instance DeviceRecord_eq_dec : EqDecision DeviceRecord.
Proof. solve_decision. Defined.

Definition device_id (r : DeviceRecord) : pyval := get (attrs r) "deviceId".

Definition ArloBase (dname : pyval) (device : RawDevice) : DeviceRecord :=
  mkDevice Base dname device.

Definition ArloCamera (dname : pyval) (device : RawDevice) : DeviceRecord :=
  mkDevice Camera dname device.

Definition ArloDoorBell (dname : pyval) (device : RawDevice) : DeviceRecord :=
  mkDevice Doorbell dname device.

(** ** The classifier of [__init__] *)

(** The three collections under construction and the lines written at
    info level. *)
Record classified : Type := mkClassified {
  c_bases : list DeviceRecord;
  c_cameras : list DeviceRecord;
  c_doorbells : list DeviceRecord;
  c_info : list string
}.

Definition no_devices : classified := mkClassified [] [] [] [].

(** The records of all three collections. *)
Definition records (c : classified) : list DeviceRecord :=
  c_bases c ++ c_cameras c ++ c_doorbells c.

Definition is_base (dtype : pyval) (device : RawDevice) : bool :=
  bool_decide (dtype = VStr "basestation")
  || bool_decide (get device "modelId" = VStr "ABC1000")
  || bool_decide (dtype = VStr "arloq")
  || bool_decide (dtype = VStr "arloqs").

Definition is_camera (dtype : pyval) : bool :=
  bool_decide (dtype = VStr "camera")
  || bool_decide (dtype = VStr "arloq")
  || bool_decide (dtype = VStr "arloqs").

Definition is_doorbell (dtype : pyval) : bool :=
  bool_decide (dtype = VStr "doorbell").

(** The body of the loop over [self._devices]. *)
Definition classify_device (c : classified) (device : RawDevice) : result classified :=
  let dname := get device "deviceName" in
  let dtype := get device "deviceType" in
  if decide (get_or device "state" (VStr "unknown") ≠ VStr "provisioned")
  then
    (m ←! str_add "skipping " dname;
     Ok (mkClassified (c_bases c) (c_cameras c) (c_doorbells c)
           (c_info c ++ [String.append m ": state unknown"])))
  else
    let bases :=
      if is_base dtype device then c_bases c ++ [ArloBase dname device]
      else c_bases c in
    let cameras :=
      if is_camera dtype then c_cameras c ++ [ArloCamera dname device]
      else c_cameras c in
    let doorbells :=
      if is_doorbell dtype then c_doorbells c ++ [ArloDoorBell dname device]
      else c_doorbells c in
    Ok (mkClassified bases cameras doorbells (c_info c)).

Fixpoint classify_from (c : classified) (devices : list RawDevice) : result classified :=
  match devices with
  | [] => Ok c
  | device :: rest => c' ←! classify_device c device; classify_from c' rest
  end.

Definition classify (devices : list RawDevice) : result classified :=
  classify_from no_devices devices.

(** ** Jobs and the background runner *)

(** The callables the orchestrator hands to the runner, with their keyword
    arguments. *)
Inductive job : Type :=
| J_async_ping (base : DeviceRecord)
| J_st_save
| J_ml_load
| J_refresh_camera_thumbnails
| J_refresh_camera_media
| J_refresh_ambient_sensors
| J_refresh_bases (initial : bool)
| J_refresh_devices
| J_initial_refresh
| J_fast_refresh
| J_slow_refresh.

#[global] Instance job_eq_dec : EqDecision job.
Proof. solve_decision. Defined.

(** Modelled from the spec: the TaskRunner boundary, [runNow(job, args)],
    [runAfter(job, delaySeconds)] and [runEvery(job, periodSeconds)]; the
    class [ArloBackground] is not part of the sources at hand.  The runner
    keeps what it was handed, in the order of the calls: the jobs to run at
    once, the delayed jobs and the recurring ones.  The boundary has no
    operation that removes an entry. *)
Record ArloBackground : Type := mkBackground {
  queue : list job;
  timers : list (job * Z);
  cron : list (job * Z)
}.

Definition bg_run (j : job) (bg : ArloBackground) : ArloBackground :=
  mkBackground (queue bg ++ [j]) (timers bg) (cron bg).

Definition bg_run_in (j : job) (delay : Z) (bg : ArloBackground) : ArloBackground :=
  mkBackground (queue bg) (timers bg ++ [(j, delay)]) (cron bg).

Definition bg_run_every (j : job) (period : Z) (bg : ArloBackground) : ArloBackground :=
  mkBackground (queue bg) (timers bg) (cron bg ++ [(j, period)]).

(** A recurring job the runner has been handed keeps coming up. *)
Definition registered (j : job) (bg : ArloBackground) : bool :=
  bool_decide (j ∈ (cron bg).*1).

(** Modelled from the spec: the RemoteClient boundary, of which the
    orchestrator's own code changes one thing, the session that [logout]
    ends; the class [ArloBackEnd] is not part of the sources at hand. *)
Record ArloBackEnd : Type := mkBackEnd {
  logged_in : bool
}.

Definition be_logout (be : ArloBackEnd) : ArloBackEnd := mkBackEnd false.

(** The one configuration value the orchestrator's cadences read. *)
Record ArloCfg : Type := mkCfg {
  refresh_devices_every : Z
}.

(** A calendar date, as [datetime.date] compares it. *)
Record date : Type := mkDate {
  year : Z;
  month : Z;
  day : Z
}.

#[global] Instance date_eq_dec : EqDecision date.
Proof. solve_decision. Defined.

(** ** The orchestrator *)

(** The attributes of a [PyArlo] object.  Clock readings are counted in
    whole units of the monotonic clock. *)
Record PyArlo : Type := mkPyArlo {
  _cfg : ArloCfg;
  _bg : ArloBackground;
  _st : ArloStorage;
  _be : ArloBackEnd;
  _bases : list DeviceRecord;
  _cameras : list DeviceRecord;
  _doorbells : list DeviceRecord;
  _today : date;
  _refresh_devices_at : Z;
  _devices : list RawDevice;
  _info : list string
}.

Definition set_bg (bg : ArloBackground) (a : PyArlo) : PyArlo :=
  mkPyArlo (_cfg a) bg (_st a) (_be a) (_bases a) (_cameras a) (_doorbells a)
    (_today a) (_refresh_devices_at a) (_devices a) (_info a).

Definition set_st (st : ArloStorage) (a : PyArlo) : PyArlo :=
  mkPyArlo (_cfg a) (_bg a) st (_be a) (_bases a) (_cameras a) (_doorbells a)
    (_today a) (_refresh_devices_at a) (_devices a) (_info a).

Definition set_be (be : ArloBackEnd) (a : PyArlo) : PyArlo :=
  mkPyArlo (_cfg a) (_bg a) (_st a) be (_bases a) (_cameras a) (_doorbells a)
    (_today a) (_refresh_devices_at a) (_devices a) (_info a).

Definition set_classified (c : classified) (a : PyArlo) : PyArlo :=
  mkPyArlo (_cfg a) (_bg a) (_st a) (_be a) (c_bases c) (c_cameras c) (c_doorbells c)
    (_today a) (_refresh_devices_at a) (_devices a) (c_info c).

Definition set_today (today : date) (a : PyArlo) : PyArlo :=
  mkPyArlo (_cfg a) (_bg a) (_st a) (_be a) (_bases a) (_cameras a) (_doorbells a)
    today (_refresh_devices_at a) (_devices a) (_info a).

Definition set_refresh_devices_at (t : Z) (a : PyArlo) : PyArlo :=
  mkPyArlo (_cfg a) (_bg a) (_st a) (_be a) (_bases a) (_cameras a) (_doorbells a)
    (_today a) t (_devices a) (_info a).

Definition set_devices (devices : list RawDevice) (a : PyArlo) : PyArlo :=
  mkPyArlo (_cfg a) (_bg a) (_st a) (_be a) (_bases a) (_cameras a) (_doorbells a)
    (_today a) (_refresh_devices_at a) devices (_info a).

(** [self._bg.run(j)], [self._bg.run_in(j, delay)] and
    [self._bg.run_every(j, period)]. *)
Definition run (j : job) (a : PyArlo) : PyArlo := set_bg (bg_run j (_bg a)) a.

Definition run_in (j : job) (delay : Z) (a : PyArlo) : PyArlo :=
  set_bg (bg_run_in j delay (_bg a)) a.

Definition run_every (j : job) (period : Z) (a : PyArlo) : PyArlo :=
  set_bg (bg_run_every j period (_bg a)) a.

(** [_refresh_devices]: the answer of the inventory request replaces
    [self._devices]. *)
Definition _refresh_devices (response : list RawDevice) (a : PyArlo) : PyArlo :=
  set_devices response a.

Definition _ping_bases (a : PyArlo) : PyArlo :=
  foldl (fun a base => run (J_async_ping base) a) a (_bases a).

(** [_fast_refresh], with the value [datetime.date.today()] returns. *)
Definition _fast_refresh (today : date) (a : PyArlo) : PyArlo :=
  let a := run J_st_save a in
  let a := _ping_bases a in
  if decide (_today a ≠ today)
  then
    let a := set_today today a in
    let a := run J_ml_load a in
    run J_refresh_camera_media a
  else a.

(** [_slow_refresh], with the value [time.monotonic()] returns. *)
Definition _slow_refresh (now : Z) (a : PyArlo) : PyArlo :=
  let a := run (J_refresh_bases false) a in
  let a := run J_refresh_ambient_sensors a in
  if decide (refresh_devices_every (_cfg a) ≠ 0)
  then
    if decide (now > _refresh_devices_at a)
    then
      let a := set_refresh_devices_at (now + refresh_devices_every (_cfg a)) a in
      run J_refresh_devices a
    else a
  else a.

Definition _initial_refresh (a : PyArlo) : PyArlo :=
  let a := run (J_refresh_bases true) a in
  run J_refresh_ambient_sensors a.

Definition stop (a : PyArlo) : PyArlo :=
  let a := set_st (st_save (_st a)) a in
  set_be (be_logout (_be a)) a.

(** ** Start-up *)

Section Startup.

(** The constants [__init__] imports from the constants module. *)
Variable DEVICE_KEYS : list string.
Variables TOTAL_CAMERAS_KEY TOTAL_BELLS_KEY : string.
Variables FAST_REFRESH_INTERVAL SLOW_REFRESH_INTERVAL : Z.

(** [__init__], given the configuration, the store as [ArloStorage] loaded
    it, the date and the clock reading at construction, and the answer of
    the inventory request. *)
Definition __init__ (cfg : ArloCfg) (st : ArloStorage) (today : date) (now : Z)
    (response : list RawDevice) : result PyArlo :=
  let a := mkPyArlo cfg (mkBackground [] [] []) st (mkBackEnd true) [] [] []
             today (now + refresh_devices_every cfg) [] [] in
  let info := _info a ++ ["pyaarlo starting"] in
  let a := _refresh_devices response a in
  let a := set_st (_parse_devices DEVICE_KEYS (_devices a) (_st a)) a in
  c ←! classify_from (mkClassified (_bases a) (_cameras a) (_doorbells a) info)
         (_devices a);
  let a := set_classified c a in
  let a := set_st (st_set [VStr "ARLO"; VStr TOTAL_CAMERAS_KEY]
                     (VInt (Z.of_nat (length (_cameras a)))) (_st a)) a in
  let a := set_st (st_set [VStr "ARLO"; VStr TOTAL_BELLS_KEY]
                     (VInt (Z.of_nat (length (_doorbells a)))) (_st a)) a in
  let a := _ping_bases a in
  let a := run_in J_refresh_camera_thumbnails 2 a in
  let a := run_in J_refresh_camera_media 2 a in
  let a := run_in J_initial_refresh 5 a in
  let a := run_in J_ml_load 10 a in
  let a := run_every J_fast_refresh FAST_REFRESH_INTERVAL a in
  let a := run_every J_slow_refresh SLOW_REFRESH_INTERVAL a in
  Ok a.

End Startup.

(** ** What happens to a running orchestrator *)

(** The runner brings up a recurring job with the readings its body takes,
    or carries out a queued device reload with the answer of the inventory
    request; the host calls [stop]. *)
Inductive event : Type :=
| FastTick (today : date)
| SlowTick (now : Z)
| Reload (response : list RawDevice)
| Stop.

(** A cadence comes up only while the runner holds its registration, and a
    reload is carried out only when one has been queued. *)
Definition step (a : PyArlo) (ev : event) : PyArlo :=
  match ev with
  | FastTick today =>
      if registered J_fast_refresh (_bg a) then _fast_refresh today a else a
  | SlowTick now =>
      if registered J_slow_refresh (_bg a) then _slow_refresh now a else a
  | Reload response =>
      if bool_decide (J_refresh_devices ∈ queue (_bg a))
      then _refresh_devices response a else a
  | Stop => stop a
  end.

Definition steps (a : PyArlo) (evs : list event) : PyArlo := foldl step a evs.

(** The jobs handed to [run] between two moments, the earlier given by the
    length of the queue then. *)
Definition enqueued (before after : PyArlo) : list job :=
  drop (length (queue (_bg before))) (queue (_bg after)).

(** How many times a job occurs. *)
Definition occurrences (j : job) (jobs : list job) : nat :=
  length (filter (fun j' => j' = j) jobs).

(** ** An inventory to run the definitions on *)

Definition dev (fields : list (string * pyval)) : RawDevice := list_to_map fields.

Definition B1 : RawDevice :=
  dev [("deviceId", VStr "B1"); ("deviceType", VStr "basestation");
       ("state", VStr "provisioned")].

Definition C1 : RawDevice :=
  dev [("deviceId", VStr "C1"); ("deviceType", VStr "camera");
       ("state", VStr "provisioned")].

Definition X1 : RawDevice :=
  dev [("deviceId", VStr "X1"); ("deviceType", VStr "camera");
       ("state", VStr "unknown")].

Definition Q1 : RawDevice :=
  dev [("deviceId", VStr "Q1"); ("deviceName", VStr "Hall");
       ("deviceType", VStr "arloq"); ("state", VStr "provisioned")].

Definition N1 : RawDevice :=
  dev [("deviceId", VStr "N1"); ("deviceName", VStr "Porch");
       ("deviceType", VStr "camera"); ("state", VStr "unknown")].

(** A second entry with the identifier of [X1]. *)
Definition X2 : RawDevice :=
  dev [("deviceId", VStr "X1"); ("deviceName", VStr "Gate")].

(** A provisioned doorbell. *)
Definition D1 : RawDevice :=
  dev [("deviceId", VStr "D1"); ("deviceName", VStr "Front door");
       ("deviceType", VStr "doorbell"); ("state", VStr "provisioned")].

(** An inventory with a base, a camera, a skipped camera, a combined
    device and a doorbell, and what the classifier makes of it. *)
Definition inventory0 : list RawDevice := [B1; C1; N1; Q1; D1].

Definition classified0 : classified :=
  mkClassified [ArloBase VNone B1; ArloBase (VStr "Hall") Q1]
    [ArloCamera VNone C1; ArloCamera (VStr "Hall") Q1]
    [ArloDoorBell (VStr "Front door") D1]
    ["skipping Porch: state unknown"].

Definition keys0 : list string := ["deviceName"; "deviceType"; "state"].

Definition st0 : ArloStorage := mkStorage ∅ ∅.

Definition day1 : date := mkDate 2019 3 31.
Definition day2 : date := mkDate 2019 4 1.

(** An orchestrator in its steady state with one base and one camera, a
    reload interval of ten units and the reload deadline at clock reading
    10. *)
Definition arlo0 : PyArlo :=
  mkPyArlo (mkCfg 10)
    (mkBackground [J_async_ping (ArloBase VNone B1)]
       [(J_refresh_camera_thumbnails, 2); (J_refresh_camera_media, 2);
        (J_initial_refresh, 5); (J_ml_load, 10)]
       [(J_fast_refresh, 60); (J_slow_refresh, 600)])
    (mkStorage ∅ ∅) (mkBackEnd true)
    [ArloBase VNone B1] [ArloCamera VNone C1] [] day1 10 [B1; C1]
    ["pyaarlo starting"].

(** ** Lookups and attributes *)

(** Python's [==] on the values above: a boolean equals the integer it
    counts as, and otherwise two values are equal when they are the same
    value.  A number with an integral value is an integer here whatever its
    notation, since nothing in the orchestrator tells the two apart. *)
Definition py_eq (a b : pyval) : bool :=
  match a, b with
  | VBool x, VInt z | VInt z, VBool x => bool_decide (z = if x then 1 else 0)
  | _, _ => bool_decide (a = b)
  end.

Definition lookup_camera_by_id (id : pyval) (a : PyArlo) : option DeviceRecord :=
  let camera := List.filter (fun cam => py_eq (device_id cam) id) (_cameras a) in
  match camera with
  | cam :: _ => Some cam
  | [] => None
  end.

Definition lookup_camera_by_name (nm : pyval) (a : PyArlo) : option DeviceRecord :=
  let camera := List.filter (fun cam => py_eq (name cam) nm) (_cameras a) in
  match camera with
  | cam :: _ => Some cam
  | [] => None
  end.

Definition lookup_doorbell_by_id (id : pyval) (a : PyArlo) : option DeviceRecord :=
  let doorbell := List.filter (fun cam => py_eq (device_id cam) id) (_doorbells a) in
  match doorbell with
  | bell :: _ => Some bell
  | [] => None
  end.

Definition lookup_doorbell_by_name (nm : pyval) (a : PyArlo) : option DeviceRecord :=
  let doorbell := List.filter (fun cam => py_eq (name cam) nm) (_doorbells a) in
  match doorbell with
  | bell :: _ => Some bell
  | [] => None
  end.

(** [attribute]: a read of the reserved namespace of the store. *)
Definition attribute (attr : pyval) (a : PyArlo) : pyval :=
  st_get [VStr "ARLO"; attr] VNone (_st a).

(** ** The bodies of the refresh jobs *)

(** The body of a notification to a base. *)
Record notify_body : Type := mkBody {
  action : string;
  resource : string;
  publishResponse : bool
}.

(** The calls the refresh jobs make on the devices and on the back end,
    whose code is in the device classes and in [ArloBackEnd]. *)
Inductive call : Type :=
| update_last_image (camera : DeviceRecord)
| update_media (camera : DeviceRecord)
| update_ambient_sensors (camera : DeviceRecord)
| update_modes (base : DeviceRecord)
| update_mode (base : DeviceRecord)
| notify (base : DeviceRecord) (body : notify_body).

#[global] Instance notify_body_eq_dec : EqDecision notify_body.
Proof. solve_decision. Defined.

#[global] Instance call_eq_dec : EqDecision call.
Proof. solve_decision. Defined.

(** Each body is given by the calls it makes, in order. *)
Definition _refresh_camera_thumbnails (a : PyArlo) : list call :=
  foldl (fun calls camera => calls ++ [update_last_image camera]) [] (_cameras a).

Definition _refresh_camera_media (a : PyArlo) : list call :=
  foldl (fun calls camera => calls ++ [update_media camera]) [] (_cameras a).

Definition _refresh_ambient_sensors (a : PyArlo) : list call :=
  foldl (fun calls camera => calls ++ [update_ambient_sensors camera]) [] (_cameras a).

Definition _refresh_bases (initial : bool) (a : PyArlo) : list call :=
  foldl (fun calls base =>
           let calls := calls ++ [update_modes base] in
           let calls := if initial then calls ++ [update_mode base] else calls in
           let calls := calls ++ [notify base (mkBody "get" "cameras" false)] in
           calls ++ [notify base (mkBody "get" "doorbells" false)])
        [] (_bases a).

(** The line the classifier logs for a device it skips. *)
Definition skip_line (dname : string) : string :=
  String.append (String.append "skipping " dname) ": state unknown".

(** The name of a device as a string, when it is one. *)
Definition str_name (device : RawDevice) : option string :=
  match get device "deviceName" with
  | VStr dname => Some dname
  | _ => None
  end.

(** ** Notions the properties are stated with *)

(** The jobs one fast tick hands to the runner. *)
Definition fast_jobs (today : date) (a : PyArlo) : list job :=
  [J_st_save] ++ map J_async_ping (_bases a)
  ++ (if decide (_today a ≠ today) then [J_ml_load; J_refresh_camera_media] else []).

(** The jobs one slow tick hands to the runner. *)
Definition slow_jobs (now : Z) (a : PyArlo) : list job :=
  [J_refresh_bases false; J_refresh_ambient_sensors]
  ++ (if decide (refresh_devices_every (_cfg a) ≠ 0)
      then if decide (now > _refresh_devices_at a) then [J_refresh_devices] else []
      else []).

(** What one event adds to the queue. *)
Definition step_jobs (a : PyArlo) (ev : event) : list job :=
  match ev with
  | FastTick today => if registered J_fast_refresh (_bg a) then fast_jobs today a else []
  | SlowTick now => if registered J_slow_refresh (_bg a) then slow_jobs now a else []
  | Reload _ => []
  | Stop => []
  end.

(** The device counts as provisioned for the classifier. *)
Definition provisioned (device : RawDevice) : Prop :=
  get_or device "state" (VStr "unknown") = VStr "provisioned".

(** Every record was built from a provisioned device. *)
Definition all_provisioned (c : classified) : Prop :=
  ∀ r, r ∈ records c → provisioned (attrs r).

(** An operation on the store that amounts to laying a fixed set of
    bindings over the in-memory contents. *)
Definition overlays (f : ArloStorage → ArloStorage) : Prop :=
  ∃ W : gmap (list pyval) pyval, ∀ st, f st = mkStorage (W ∪ db st) (disk st).

#[global] Instance provisioned_dec (device : RawDevice) : Decision (provisioned device).
Proof. unfold provisioned. apply _. Defined.

(** The devices of an inventory that end up as bases, as cameras and as
    doorbells, and those the classifier skips, each in inventory order. *)
Definition base_devices (devices : list RawDevice) : list RawDevice :=
  List.filter (fun d => bool_decide (provisioned d) && is_base (get d "deviceType") d)
    devices.

Definition camera_devices (devices : list RawDevice) : list RawDevice :=
  List.filter (fun d => bool_decide (provisioned d) && is_camera (get d "deviceType"))
    devices.

Definition doorbell_devices (devices : list RawDevice) : list RawDevice :=
  List.filter (fun d => bool_decide (provisioned d) && is_doorbell (get d "deviceType"))
    devices.

Definition skipped_devices (devices : list RawDevice) : list RawDevice :=
  List.filter (fun d => negb (bool_decide (provisioned d))) devices.

(** The device can go through the classifier: it is provisioned, or its
    name is a string. *)
Definition classifiable (device : RawDevice) : bool :=
  bool_decide (provisioned device)
  || match get device "deviceName" with VStr _ => true | _ => false end.

(** The first element of a list that passes a test, as the lookups take
    it: the head of the filtered list, or nothing when that list is empty. *)
Definition first_match {A : Type} (p : A → bool) (l : list A) : option A :=
  match List.filter p l with
  | x :: _ => Some x
  | [] => None
  end.

(** The test of the classifier that goes with a kind of record. *)
Definition kind_test (k : kind) (device : RawDevice) : bool :=
  match k with
  | Base => is_base (get device "deviceType") device
  | Camera => is_camera (get device "deviceType")
  | Doorbell => is_doorbell (get device "deviceType")
  end.

(** The orchestrator [__init__] returns, given the constants it imports
    and what the classifier returned. *)
Definition started (KEYS : list string) (kc kb : string) (fast slow : Z)
    (cfg : ArloCfg) (st : ArloStorage) (today : date) (now : Z)
    (response : list RawDevice) (r : classified) : PyArlo :=
  mkPyArlo cfg
    (mkBackground (map J_async_ping (c_bases r))
       [(J_refresh_camera_thumbnails, 2); (J_refresh_camera_media, 2);
        (J_initial_refresh, 5); (J_ml_load, 10)]
       [(J_fast_refresh, fast); (J_slow_refresh, slow)])
    (st_set [VStr "ARLO"; VStr kb] (VInt (Z.of_nat (length (c_doorbells r))))
       (st_set [VStr "ARLO"; VStr kc] (VInt (Z.of_nat (length (c_cameras r))))
          (_parse_devices KEYS response st)))
    (mkBackEnd true) (c_bases r) (c_cameras r) (c_doorbells r) today
    (now + refresh_devices_every cfg) response ("pyaarlo starting" :: c_info r).

(** The orchestrator started on [inventory0]. *)
Definition arlo1 : PyArlo :=
  started keys0 "totalCameras" "totalBells" 60 600 (mkCfg 10) st0 day1 0
    inventory0 classified0.

(** The calls of the base refresh on one base, in order. *)
Definition base_calls (initial : bool) (base : DeviceRecord) : list call :=
  [update_modes base]
  ++ (if initial then [update_mode base] else [])
  ++ [notify base (mkBody "get" "cameras" false);
      notify base (mkBody "get" "doorbells" false)].

(** * Properties *)

(** ** The queue of the runner *)

Lemma enqueued_app (a a' : PyArlo) (jobs : list job) :
  queue (_bg a') = queue (_bg a) ++ jobs → enqueued a a' = jobs.
Proof.
  intros E. unfold enqueued. rewrite E. apply drop_app_length.
Qed.

Lemma ping_each (l : list DeviceRecord) (a : PyArlo) :
  foldl (fun a base => run (J_async_ping base) a) a l
  = set_bg (mkBackground (queue (_bg a) ++ map J_async_ping l)
              (timers (_bg a)) (cron (_bg a))) a.
Proof.
  revert a. induction l as [|b l IH]; intros a; simpl.
  - rewrite app_nil_r. destruct a as [? [] ? ? ? ? ? ? ? ? ?]. reflexivity.
  - rewrite IH. unfold set_bg, run, bg_run; simpl.
    rewrite <- app_assoc. reflexivity.
Qed.

Lemma ping_bases_eq (a : PyArlo) :
  _ping_bases a
  = set_bg (mkBackground (queue (_bg a) ++ map J_async_ping (_bases a))
              (timers (_bg a)) (cron (_bg a))) a.
Proof. apply ping_each. Qed.

Lemma fast_refresh_queue (today : date) (a : PyArlo) :
  queue (_bg (_fast_refresh today a)) = queue (_bg a) ++ fast_jobs today a.
Proof.
  unfold _fast_refresh, fast_jobs. rewrite ping_bases_eq. simpl.
  destruct (decide (_today a ≠ today)); simpl;
    rewrite <- ?app_assoc; simpl; rewrite <- ?app_assoc; simpl;
    rewrite ?app_nil_r; reflexivity.
Qed.

Lemma fast_refresh_today (today : date) (a : PyArlo) :
  _today (_fast_refresh today a) = today.
Proof.
  unfold _fast_refresh. rewrite ping_bases_eq. simpl.
  destruct (decide (_today a ≠ today)) as [|E]; simpl; [reflexivity|].
  destruct (decide (_today a = today)); [assumption | contradiction].
Qed.

Lemma fast_refresh_frame (today : date) (a : PyArlo) :
  let a' := _fast_refresh today a in
  _cfg a' = _cfg a ∧ cron (_bg a') = cron (_bg a) ∧ _bases a' = _bases a
  ∧ _cameras a' = _cameras a ∧ _doorbells a' = _doorbells a
  ∧ _refresh_devices_at a' = _refresh_devices_at a.
Proof.
  unfold _fast_refresh. rewrite ping_bases_eq. simpl.
  destruct (decide (_today a ≠ today)); simpl; repeat split.
Qed.

Lemma slow_refresh_queue (now : Z) (a : PyArlo) :
  queue (_bg (_slow_refresh now a)) = queue (_bg a) ++ slow_jobs now a.
Proof.
  unfold _slow_refresh, slow_jobs. simpl.
  destruct (decide (refresh_devices_every (_cfg a) ≠ 0)); simpl;
    [destruct (decide (now > _refresh_devices_at a)); simpl|];
    rewrite <- ?app_assoc; reflexivity.
Qed.

Lemma slow_refresh_frame (now : Z) (a : PyArlo) :
  let a' := _slow_refresh now a in
  _cfg a' = _cfg a ∧ cron (_bg a') = cron (_bg a) ∧ _bases a' = _bases a
  ∧ _cameras a' = _cameras a ∧ _doorbells a' = _doorbells a
  ∧ _today a' = _today a.
Proof.
  unfold _slow_refresh. simpl.
  destruct (decide (refresh_devices_every (_cfg a) ≠ 0)); simpl;
    [destruct (decide (now > _refresh_devices_at a)); simpl|];
    repeat split.
Qed.

Lemma step_queue (a : PyArlo) (ev : event) :
  queue (_bg (step a ev)) = queue (_bg a) ++ step_jobs a ev.
Proof.
  destruct ev as [today|now|response|]; simpl.
  - destruct (registered J_fast_refresh (_bg a));
      [apply fast_refresh_queue | by rewrite app_nil_r].
  - destruct (registered J_slow_refresh (_bg a));
      [apply slow_refresh_queue | by rewrite app_nil_r].
  - destruct (bool_decide _); simpl; by rewrite app_nil_r.
  - by rewrite app_nil_r.
Qed.

Lemma step_cfg (a : PyArlo) (ev : event) : _cfg (step a ev) = _cfg a.
Proof.
  destruct ev as [today|now|response|]; simpl.
  - destruct (registered J_fast_refresh (_bg a)); [|reflexivity].
    apply (fast_refresh_frame today a).
  - destruct (registered J_slow_refresh (_bg a)); [|reflexivity].
    apply (slow_refresh_frame now a).
  - destruct (bool_decide _); reflexivity.
  - reflexivity.
Qed.

Lemma steps_cfg (evs : list event) (a : PyArlo) : _cfg (steps a evs) = _cfg a.
Proof.
  revert a. induction evs as [|ev evs IH]; intros a; simpl; [reflexivity|].
  unfold steps in IH. rewrite IH. apply step_cfg.
Qed.

Lemma ping_not_reload (l : list DeviceRecord) :
  J_refresh_devices ∉ map J_async_ping l.
Proof.
  intros H. apply list_elem_of_fmap in H as (b & E & _). discriminate.
Qed.

Lemma fast_jobs_no_reload (today : date) (a : PyArlo) :
  J_refresh_devices ∉ fast_jobs today a.
Proof.
  unfold fast_jobs. intros H.
  apply elem_of_app in H as [H|H]; [by apply list_elem_of_singleton in H|].
  apply elem_of_app in H as [H|H]; [by apply ping_not_reload in H|].
  destruct (decide (_today a ≠ today)); [|by apply elem_of_nil in H].
  apply elem_of_cons in H as [H|H]; [discriminate|].
  by apply list_elem_of_singleton in H.
Qed.

Lemma slow_jobs_no_reload (now : Z) (a : PyArlo) :
  refresh_devices_every (_cfg a) = 0 → J_refresh_devices ∉ slow_jobs now a.
Proof.
  intros E. unfold slow_jobs.
  destruct (decide (refresh_devices_every (_cfg a) ≠ 0)); [contradiction|].
  rewrite app_nil_r. intros H.
  apply elem_of_cons in H as [H|H]; [discriminate|].
  by apply list_elem_of_singleton in H.
Qed.

Lemma step_no_reload (a : PyArlo) (ev : event) :
  refresh_devices_every (_cfg a) = 0 → J_refresh_devices ∉ step_jobs a ev.
Proof.
  intros E. destruct ev as [today|now|response|]; simpl.
  - destruct (registered J_fast_refresh (_bg a));
      [apply fast_jobs_no_reload | apply not_elem_of_nil].
  - destruct (registered J_slow_refresh (_bg a));
      [by apply slow_jobs_no_reload | apply not_elem_of_nil].
  - apply not_elem_of_nil.
  - apply not_elem_of_nil.
Qed.

(** With the interval at zero no sequence of events adds a reload to the
    queue, whatever state it starts from. *)
Lemma steps_no_reload (evs : list event) (a : PyArlo) :
  refresh_devices_every (_cfg a) = 0 →
  ∃ jobs, queue (_bg (steps a evs)) = queue (_bg a) ++ jobs
          ∧ J_refresh_devices ∉ jobs.
Proof.
  revert a. induction evs as [|ev evs IH]; intros a E.
  - exists []. split; [by rewrite app_nil_r | apply not_elem_of_nil].
  - destruct (IH (step a ev)) as (jobs & Q & N); [by rewrite step_cfg|].
    exists (step_jobs a ev ++ jobs). split.
    + change (steps a (ev :: evs)) with (steps (step a ev) evs).
      rewrite Q, step_queue, app_assoc. reflexivity.
    + intros H. apply elem_of_app in H as [H|H]; [|contradiction].
      by apply (step_no_reload a ev).
Qed.

(** What [__init__] leaves in the runner and in the schedule state. *)
Lemma init_runner (KEYS : list string) (kc kb : string) (fast slow : Z)
    (cfg : ArloCfg) (st : ArloStorage) (today : date) (now : Z)
    (response : list RawDevice) (a : PyArlo) :
  __init__ KEYS kc kb fast slow cfg st today now response = Ok a →
  _cfg a = cfg
  ∧ queue (_bg a) = map J_async_ping (_bases a)
  ∧ cron (_bg a) = [(J_fast_refresh, fast); (J_slow_refresh, slow)]
  ∧ _today a = today
  ∧ _refresh_devices_at a = now + refresh_devices_every cfg
  ∧ _devices a = response.
Proof.
  unfold __init__. simpl.
  destruct (classify_from _ response) as [c|e]; simpl; [|discriminate].
  rewrite ping_bases_eq. simpl. intros [= <-]. simpl. repeat split.
Qed.




(** C2.  With the reload interval configured as zero, the queue of an
    orchestrator that [__init__] built never holds a device reload, after
    any sequence of fast ticks, slow ticks at any clock readings, reloads
    and stops. *)
Theorem reload_disabled_forever (KEYS : list string) (kc kb : string)
    (fast slow : Z) (cfg : ArloCfg) (st : ArloStorage) (today : date) (now : Z)
    (response : list RawDevice) (a : PyArlo) (evs : list event) :
  refresh_devices_every cfg = 0 →
  __init__ KEYS kc kb fast slow cfg st today now response = Ok a →
  J_refresh_devices ∉ queue (_bg (steps a evs)).
Proof.
  intros Z0 I. apply init_runner in I as (C & Q & _).
  destruct (steps_no_reload evs a) as (jobs & Q' & N); [by rewrite C|].
  rewrite Q', Q. intros H. apply elem_of_app in H as [H|H]; [|contradiction].
  by apply ping_not_reload in H.
Qed.

Lemma reload_disabled_forever_witness :
  ∃ a, __init__ keys0 "totalCameras" "totalBells" 60 600 (mkCfg 0) st0 day1 0
         [B1; C1; N1] = Ok a
       ∧ J_refresh_devices
         ∉ queue (_bg (steps a [SlowTick 700; FastTick day2; SlowTick 1000000])).
Proof.
  eexists. split; [vm_compute; reflexivity|].
  eapply (reload_disabled_forever keys0 "totalCameras" "totalBells" 60 600
            (mkCfg 0) st0 day1 0 [B1; C1; N1]);
    [reflexivity | vm_compute; reflexivity].
Defined.

Lemma occurrences_app (j : job) (l1 l2 : list job) :
  occurrences j (l1 ++ l2) = (occurrences j l1 + occurrences j l2)%nat.
Proof. unfold occurrences. rewrite filter_app. apply length_app. Qed.

Lemma occurrences_ping (j : job) (l : list DeviceRecord) :
  (∀ base, j ≠ J_async_ping base) →
  occurrences j (map J_async_ping l) = 0%nat.
Proof.
  intros N. unfold occurrences. induction l as [|b l IH]; simpl; [reflexivity|].
  rewrite filter_cons_False; [exact IH|].
  intros E. by apply (N b).
Qed.

(** How often a job that is neither the save nor a ping occurs among the
    jobs of a fast tick. *)
Lemma occurrences_fast_jobs (j : job) (today : date) (a : PyArlo) :
  j ≠ J_st_save → (∀ base, j ≠ J_async_ping base) →
  occurrences j (fast_jobs today a)
  = if decide (_today a ≠ today)
    then occurrences j [J_ml_load; J_refresh_camera_media]
    else 0%nat.
Proof.
  intros S P. unfold fast_jobs.
  rewrite !occurrences_app, occurrences_ping by assumption.
  assert (occurrences j [J_st_save] = 0%nat) as ->.
  { unfold occurrences. rewrite filter_cons_False; [reflexivity|].
    intros E. by apply S. }
  destruct (decide (_today a ≠ today)); reflexivity.
Qed.

(** C3.  After a fast tick on date D1, a fast tick on a different date D2
    hands the runner exactly one media-library load and exactly one
    camera-media rebuild and stores D2 as today; a further fast tick on D2
    hands it neither. *)
Theorem day_rollover_once (a : PyArlo) (D1 D2 : date) :
  D1 ≠ D2 →
  let a1 := _fast_refresh D1 a in
  let a2 := _fast_refresh D2 a1 in
  let a3 := _fast_refresh D2 a2 in
  occurrences J_ml_load (enqueued a1 a2) = 1%nat
  ∧ occurrences J_refresh_camera_media (enqueued a1 a2) = 1%nat
  ∧ _today a2 = D2
  ∧ occurrences J_ml_load (enqueued a2 a3) = 0%nat
  ∧ occurrences J_refresh_camera_media (enqueued a2 a3) = 0%nat.
Proof.
  intros N a1 a2 a3.
  rewrite (enqueued_app a1 a2 _ (fast_refresh_queue D2 a1)).
  rewrite (enqueued_app a2 a3 _ (fast_refresh_queue D2 a2)).
  rewrite !occurrences_fast_jobs by discriminate.
  assert (_today a1 = D1) as T1 by apply fast_refresh_today.
  assert (_today a2 = D2) as T2 by apply fast_refresh_today.
  rewrite T1, T2.
  destruct (decide (D1 ≠ D2)); [|contradiction].
  destruct (decide (D2 ≠ D2)); [contradiction|].
  repeat split.
Qed.

Lemma day_rollover_once_witness :
  let a1 := _fast_refresh day1 arlo0 in
  let a2 := _fast_refresh day2 a1 in
  let a3 := _fast_refresh day2 a2 in
  occurrences J_ml_load (enqueued a1 a2) = 1%nat
  ∧ occurrences J_refresh_camera_media (enqueued a1 a2) = 1%nat
  ∧ _today a2 = day2
  ∧ occurrences J_ml_load (enqueued a2 a3) = 0%nat
  ∧ occurrences J_refresh_camera_media (enqueued a2 a3) = 0%nat.
Proof.
  apply (day_rollover_once arlo0 day1 day2). discriminate.
Defined.

(** ** Shutdown *)

Lemma step_jobs_enqueued (a : PyArlo) (ev : event) :
  enqueued a (step a ev) = step_jobs a ev.
Proof. apply enqueued_app, step_queue. Qed.

(** C4, as stated, fails: on an orchestrator that [__init__] built, both
    cadences are still registered after [stop], and a fast tick that comes
    up afterwards runs and hands the runner a save and a ping. *)
Lemma stop_leaves_cadences_firing :
  ∃ a, __init__ keys0 "totalCameras" "totalBells" 60 600 (mkCfg 10) st0 day1 0
         [B1; C1] = Ok a
       ∧ registered J_fast_refresh (_bg (stop a)) = true
       ∧ registered J_slow_refresh (_bg (stop a)) = true
       ∧ enqueued (stop a) (step (stop a) (FastTick day1))
         = [J_st_save; J_async_ping (ArloBase VNone B1)]
       ∧ enqueued (stop a) (step (stop a) (SlowTick 5))
         = [J_refresh_bases false; J_refresh_ambient_sensors].
Proof.
  eexists. split; [vm_compute; reflexivity|].
  vm_compute. repeat split.
Qed.

(** C4, as amended.  [stop] copies the store to its durable copy and ends
    the remote session, and nothing else: the runner keeps its queue, its
    delayed jobs and its recurring jobs, the schedule state and the
    collections are as before, and whatever event comes next hands the
    runner the same jobs as it would have without the [stop]. *)
Theorem stop_flushes_and_logs_out_only (a : PyArlo) :
  disk (_st (stop a)) = db (_st a)
  ∧ db (_st (stop a)) = db (_st a)
  ∧ logged_in (_be (stop a)) = false
  ∧ _bg (stop a) = _bg a
  ∧ _today (stop a) = _today a
  ∧ _refresh_devices_at (stop a) = _refresh_devices_at a
  ∧ (_bases (stop a), _cameras (stop a), _doorbells (stop a))
    = (_bases a, _cameras a, _doorbells a)
  ∧ ∀ ev, enqueued (stop a) (step (stop a) ev) = enqueued a (step a ev).
Proof.
  repeat split.
  intros ev. rewrite !step_jobs_enqueued.
  destruct ev; reflexivity.
Qed.

(** ** Classification *)

Lemma provisioned_lookup (device : RawDevice) :
  provisioned device ↔ device !! "state" = Some (VStr "provisioned").
Proof.
  unfold provisioned, get_or.
  destruct (device !! "state") as [v|]; simpl; split;
    intros E; try congruence; discriminate.
Qed.

Lemma get_provisioned (device : RawDevice) :
  get device "state" = VStr "provisioned" → provisioned device.
Proof.
  unfold get, get_or. intros E. apply provisioned_lookup.
  destruct (device !! "state"); simpl in E; [congruence | discriminate].
Qed.

(** The step on a provisioned device. *)
Lemma classify_device_provisioned (c : classified) (device : RawDevice) :
  provisioned device →
  classify_device c device
  = Ok (mkClassified
          (if is_base (get device "deviceType") device
           then c_bases c ++ [ArloBase (get device "deviceName") device]
           else c_bases c)
          (if is_camera (get device "deviceType")
           then c_cameras c ++ [ArloCamera (get device "deviceName") device]
           else c_cameras c)
          (if is_doorbell (get device "deviceType")
           then c_doorbells c ++ [ArloDoorBell (get device "deviceName") device]
           else c_doorbells c)
          (c_info c)).
Proof.
  intros P. unfold classify_device.
  destruct (decide _) as [N|_]; [contradiction | reflexivity].
Qed.

(** The step on any other device. *)
Lemma classify_device_skipped (c : classified) (device : RawDevice) :
  ¬ provisioned device →
  classify_device c device
  = match get device "deviceName" with
    | VStr dname =>
        Ok (mkClassified (c_bases c) (c_cameras c) (c_doorbells c)
              (c_info c
               ++ [String.append (String.append "skipping " dname) ": state unknown"]))
    | _ => Raise TypeError
    end.
Proof.
  intros N. unfold classify_device.
  destruct (decide _) as [_|P]; [|by apply dec_stable in P].
  destruct (get device "deviceName"); reflexivity.
Qed.

Lemma classify_from_app (c r : classified) (l1 l2 : list RawDevice) :
  classify_from c (l1 ++ l2) = Ok r →
  ∃ c1, classify_from c l1 = Ok c1 ∧ classify_from c1 l2 = Ok r.
Proof.
  revert c. induction l1 as [|d l1 IH]; intros c; simpl.
  - intros E. by exists c.
  - destruct (classify_device c d) as [c'|e]; simpl; [apply IH | discriminate].
Qed.

(** A step only appends to the collections. *)
Lemma classify_device_grows (c c' : classified) (device : RawDevice) :
  classify_device c device = Ok c' →
  c_bases c ⊆ c_bases c' ∧ c_cameras c ⊆ c_cameras c'
  ∧ c_doorbells c ⊆ c_doorbells c'.
Proof.
  destruct (decide (provisioned device)) as [P|N].
  - rewrite classify_device_provisioned by assumption. intros [= <-]. simpl.
    repeat split;
      match goal with |- context [if ?b then _ else _] => destruct b end;
      intros x Hx; try assumption; apply elem_of_app; by left.
  - rewrite classify_device_skipped by assumption.
    destruct (get device "deviceName"); try discriminate.
    intros [= <-]. simpl. repeat split; intros x Hx; assumption.
Qed.

Lemma classify_from_grows (l : list RawDevice) (c r : classified) :
  classify_from c l = Ok r →
  c_bases c ⊆ c_bases r ∧ c_cameras c ⊆ c_cameras r
  ∧ c_doorbells c ⊆ c_doorbells r.
Proof.
  revert c. induction l as [|d l IH]; intros c; simpl.
  - intros [= <-]. repeat split; intros x Hx; assumption.
  - destruct (classify_device c d) as [c'|e] eqn:E; simpl; [|discriminate].
    intros R. apply classify_device_grows in E as (B & C & D).
    apply IH in R as (B' & C' & D').
    repeat split; intros x Hx; auto.
Qed.

Lemma classify_device_all_provisioned (c c' : classified) (device : RawDevice) :
  all_provisioned c → classify_device c device = Ok c' → all_provisioned c'.
Proof.
  intros A. destruct (decide (provisioned device)) as [P|N].
  - rewrite classify_device_provisioned by assumption. intros [= <-].
    intros r. unfold records. simpl. rewrite !elem_of_app. intros H.
    assert (r ∈ records c ∨ attrs r = device) as [Hr | ->];
      [|by apply A|assumption].
    unfold records. rewrite !elem_of_app.
    destruct H as [H|[H|H]];
      match type of H with context [if ?b then _ else _] => destruct b end;
      try (apply elem_of_app in H as [H|H];
           [|apply list_elem_of_singleton in H; subst r; by right]);
      left; auto.
  - rewrite classify_device_skipped by assumption.
    destruct (get device "deviceName"); try discriminate.
    intros [= <-]. exact A.
Qed.

Lemma classify_from_all_provisioned (l : list RawDevice) (c r : classified) :
  all_provisioned c → classify_from c l = Ok r → all_provisioned r.
Proof.
  revert c. induction l as [|d l IH]; intros c A; simpl.
  - by intros [= <-].
  - destruct (classify_device c d) as [c'|e] eqn:E; simpl; [|discriminate].
    apply IH. by eapply classify_device_all_provisioned.
Qed.

(** When every device that is not provisioned carries a string as its
    name, the classifier returns. *)
Lemma classify_from_returns (l : list RawDevice) (c : classified) :
  (∀ d, d ∈ l → provisioned d ∨ ∃ dname, get d "deviceName" = VStr dname) →
  ∃ r, classify_from c l = Ok r.
Proof.
  revert c. induction l as [|d l IH]; intros c H; simpl; [by exists c|].
  assert (∃ c', classify_device c d = Ok c') as [c' ->].
  { destruct (decide (provisioned d)) as [P|N].
    - rewrite classify_device_provisioned by assumption. by eexists.
    - rewrite classify_device_skipped by assumption.
      destruct (H d) as [P|[dname ->]]; [by left | contradiction | by eexists]. }
  simpl. apply IH. intros d' Hd'. apply H. by right.
Qed.

(** C5 fails on the code.  A device that is not provisioned and has no
    [deviceName] makes the classifier raise [TypeError], when it is the
    whole inventory, when it follows devices that classify, and so
    [__init__] raises on the three-device inventory of the end-to-end
    scenario. *)
Theorem classify_raises_on_nameless_skipped_device :
  classify [X1] = Raise TypeError
  ∧ classify [B1; C1; X1] = Raise TypeError
  ∧ __init__ keys0 "totalCameras" "totalBells" 60 600 (mkCfg 10) st0 day1 0
      [B1; C1; X1] = Raise TypeError.
Proof. vm_compute. repeat split. Qed.

(** C6.  A device of type "arloq" or "arloqs" whose state is "provisioned"
    adds one Base record and one Camera record in its step, both built from
    that device and so with the same device identifier; and whenever the
    classifier returns on an inventory that contains the device, both
    records are in its collections. *)
Theorem arloq_yields_base_and_camera (device : RawDevice) :
  get device "deviceType" = VStr "arloq" ∨ get device "deviceType" = VStr "arloqs" →
  get device "state" = VStr "provisioned" →
  let base := ArloBase (get device "deviceName") device in
  let camera := ArloCamera (get device "deviceName") device in
  (∀ c, classify_device c device
        = Ok (mkClassified (c_bases c ++ [base]) (c_cameras c ++ [camera])
                (c_doorbells c) (c_info c)))
  ∧ (∀ l1 l2 r, classify (l1 ++ device :: l2) = Ok r →
                base ∈ c_bases r ∧ camera ∈ c_cameras r)
  ∧ device_id base = get device "deviceId"
  ∧ device_id camera = get device "deviceId".
Proof.
  intros T S base camera.
  assert (∀ c, classify_device c device
               = Ok (mkClassified (c_bases c ++ [base]) (c_cameras c ++ [camera])
                       (c_doorbells c) (c_info c))) as Step.
  { intros c. rewrite classify_device_provisioned by by apply get_provisioned.
    unfold is_base, is_camera, is_doorbell.
    destruct T as [-> | ->];
      destruct (bool_decide (get device "modelId" = VStr "ABC1000"));
      reflexivity. }
  split; [exact Step|]. split; [|split; reflexivity].
  intros l1 l2 r R. unfold classify in R.
  apply classify_from_app in R as (c1 & _ & R). simpl in R.
  rewrite Step in R. simpl in R.
  apply classify_from_grows in R as (B & C & _). simpl in B, C.
  split; [apply B | apply C]; apply elem_of_app; right;
    by apply list_elem_of_singleton.
Qed.

Lemma arloq_yields_base_and_camera_witness :
  (∀ c, classify_device c Q1
        = Ok (mkClassified (c_bases c ++ [ArloBase (VStr "Hall") Q1])
                (c_cameras c ++ [ArloCamera (VStr "Hall") Q1])
                (c_doorbells c) (c_info c)))
  ∧ (∀ l1 l2 r, classify (l1 ++ Q1 :: l2) = Ok r →
                ArloBase (VStr "Hall") Q1 ∈ c_bases r
                ∧ ArloCamera (VStr "Hall") Q1 ∈ c_cameras r)
  ∧ device_id (ArloBase (VStr "Hall") Q1) = get Q1 "deviceId"
  ∧ device_id (ArloCamera (VStr "Hall") Q1) = get Q1 "deviceId".
Proof.
  apply (arloq_yields_base_and_camera Q1); [left|]; reflexivity.
Defined.

(** C7.  A device whose [state] is absent or is not "provisioned" adds no
    record in its step: the step either logs the skip and leaves the three
    collections as they are (when the name is a string) or raises; and
    whenever the classifier returns, no record of any collection was built
    from that device, whatever its other fields. *)
Theorem unprovisioned_yields_no_record (device : RawDevice) :
  device !! "state" ≠ Some (VStr "provisioned") →
  (∀ c c', classify_device c device = Ok c' →
           c_bases c' = c_bases c ∧ c_cameras c' = c_cameras c
           ∧ c_doorbells c' = c_doorbells c)
  ∧ (∀ c dname, get device "deviceName" = VStr dname →
                ∃ c', classify_device c device = Ok c')
  ∧ (∀ devices r, classify devices = Ok r →
                  ∀ rec, rec ∈ records r → attrs rec ≠ device).
Proof.
  intros S.
  assert (¬ provisioned device) as N by by rewrite provisioned_lookup.
  split; [|split].
  - intros c c'. rewrite classify_device_skipped by assumption.
    destruct (get device "deviceName"); try discriminate.
    intros [= <-]. repeat split.
  - intros c dname E. rewrite classify_device_skipped by assumption.
    rewrite E. by eexists.
  - intros devices r R rec Hrec E. apply N. rewrite <- E.
    eapply (classify_from_all_provisioned devices no_devices r); try eassumption.
    intros x Hx. by apply elem_of_nil in Hx.
Qed.

Lemma unprovisioned_yields_no_record_witness :
  (∀ c c', classify_device c N1 = Ok c' →
           c_bases c' = c_bases c ∧ c_cameras c' = c_cameras c
           ∧ c_doorbells c' = c_doorbells c)
  ∧ (∀ c dname, get N1 "deviceName" = VStr dname →
                ∃ c', classify_device c N1 = Ok c')
  ∧ (∀ devices r, classify devices = Ok r →
                  ∀ rec, rec ∈ records r → attrs rec ≠ N1).
Proof.
  apply (unprovisioned_yields_no_record N1). vm_compute. discriminate.
Defined.

(** ** Metadata persistence *)

Lemma overlays_id : overlays (fun st => st).
Proof.
  exists ∅. intros [m d]. simpl. by rewrite (left_id_L ∅ (∪)).
Qed.

Lemma overlays_set (keys : list pyval) (value : pyval) :
  overlays (st_set keys value).
Proof.
  exists {[keys := value]}. intros st. unfold st_set.
  by rewrite insert_union_singleton_l.
Qed.

Lemma overlays_compose (f g : ArloStorage → ArloStorage) :
  overlays f → overlays g → overlays (fun st => g (f st)).
Proof.
  intros [Wf Hf] [Wg Hg]. exists (Wg ∪ Wf). intros st.
  rewrite Hg, Hf. simpl. by rewrite (assoc_L (∪)).
Qed.

Lemma overlays_foldl {A : Type} (f : ArloStorage → A → ArloStorage) (l : list A) :
  (∀ x, overlays (fun st => f st x)) → overlays (fun st => foldl f st l).
Proof.
  intros H. induction l as [|x l IH] using rev_ind; simpl.
  - apply overlays_id.
  - destruct IH as [W HW]. destruct (H x) as [Wx Hx].
    exists (Wx ∪ W). intros st. rewrite foldl_snoc, Hx, HW. simpl.
    by rewrite (assoc_L (∪)).
Qed.

Lemma overlays_idempotent (f : ArloStorage → ArloStorage) (st : ArloStorage) :
  overlays f → f (f st) = f st.
Proof.
  intros [W H]. rewrite !H. simpl.
  by rewrite (assoc_L (∪)), (idemp_L (∪)).
Qed.

Section Persist.

Variable KEYS : list string.

Lemma parse_device_overlays (device : RawDevice) :
  overlays (fun st => parse_device KEYS st device).
Proof.
  unfold parse_device. destruct (decide _); [|apply overlays_id].
  unfold parse_keys. apply overlays_foldl. intros key.
  destruct (decide _); [apply overlays_set | apply overlays_id].
Qed.

Lemma parse_devices_overlays (devices : list RawDevice) :
  overlays (_parse_devices KEYS devices).
Proof.
  unfold _parse_devices. apply (overlays_foldl (parse_device KEYS)).
  apply parse_device_overlays.
Qed.

(** The inner loop stores a tracked, non-null field of the device under
    the path of the device identifier and the key. *)
Lemma parse_keys_stores (keys : list string) (id : pyval) (device : RawDevice)
    (st : ArloStorage) (key : string) :
  key ∈ keys → get device key ≠ VNone →
  db (parse_keys keys id device st) !! [id; VStr key] = Some (get device key).
Proof.
  intros In NN. unfold parse_keys.
  induction keys as [|k keys IH] using rev_ind; [by apply elem_of_nil in In|].
  rewrite foldl_snoc. destruct (decide (k = key)) as [->|Nk].
  - destruct (decide _); [|contradiction]. simpl. apply lookup_insert_eq.
  - apply elem_of_app in In as [In|In];
      [|apply list_elem_of_singleton in In; congruence].
    destruct (decide _); [|by apply IH]. simpl.
    rewrite lookup_insert_ne; [by apply IH | congruence].
Qed.

(** The inner loop writes under the path of its own device identifier
    only. *)
Lemma parse_keys_elsewhere (keys : list string) (id : pyval) (device : RawDevice)
    (st : ArloStorage) (path : list pyval) :
  head path ≠ Some id →
  db (parse_keys keys id device st) !! path = db st !! path.
Proof.
  intros N. unfold parse_keys.
  induction keys as [|k keys IH] using rev_ind; [reflexivity|].
  rewrite foldl_snoc. destruct (decide _); [|exact IH]. simpl.
  rewrite lookup_insert_ne; [exact IH|].
  intros <-. by apply N.
Qed.

Lemma parse_device_elsewhere (device : RawDevice) (st : ArloStorage)
    (path : list pyval) :
  head path ≠ Some (get device "deviceId") →
  db (parse_device KEYS st device) !! path = db st !! path.
Proof.
  intros N. unfold parse_device.
  destruct (decide _); [by apply parse_keys_elsewhere | reflexivity].
Qed.

Lemma parse_devices_elsewhere (devices : list RawDevice) (st : ArloStorage)
    (path : list pyval) :
  (∀ d, d ∈ devices → head path ≠ Some (get d "deviceId")) →
  db (_parse_devices KEYS devices st) !! path = db st !! path.
Proof.
  unfold _parse_devices. revert st.
  induction devices as [|d devices IH]; intros st H; simpl; [reflexivity|].
  rewrite IH; [apply parse_device_elsewhere, H; by left|].
  intros d' In. apply H. by right.
Qed.

(** C8.  For a device of the inventory whose [deviceId] is not null and a
    tracked key whose value in the device is not null, whatever the
    device's state and other fields: once the loop has handled the device,
    the store holds that value under the path [deviceId, key]; and it still
    holds it when the loop ends, provided no later entry of the inventory
    carries the same [deviceId]. *)
Theorem parse_devices_persists (l1 l2 : list RawDevice) (device : RawDevice)
    (key : string) (st : ArloStorage) :
  get device "deviceId" ≠ VNone →
  key ∈ KEYS →
  get device key ≠ VNone →
  db (_parse_devices KEYS (l1 ++ [device]) st)
    !! [get device "deviceId"; VStr key] = Some (get device key)
  ∧ ((∀ d, d ∈ l2 → get d "deviceId" ≠ get device "deviceId") →
     db (_parse_devices KEYS (l1 ++ device :: l2) st)
       !! [get device "deviceId"; VStr key] = Some (get device key)).
Proof.
  intros Id In NN.
  assert (∀ st', db (parse_device KEYS st' device)
                   !! [get device "deviceId"; VStr key] = Some (get device key))
    as Step.
  { intros st'. unfold parse_device.
    destruct (decide _); [by apply parse_keys_stores | contradiction]. }
  split.
  - unfold _parse_devices. rewrite foldl_snoc. apply Step.
  - intros Later. unfold _parse_devices.
    rewrite foldl_app. simpl.
    change (foldl (parse_device KEYS) ?s l2) with (_parse_devices KEYS l2 s).
    rewrite parse_devices_elsewhere; [apply Step|].
    intros d Hd. simpl. intros [= E]. by apply (Later d).
Qed.

(** C9.  Running the metadata persistence a second time on the same
    inventory leaves the store exactly as the first run left it. *)
Theorem parse_devices_idempotent (devices : list RawDevice) (st : ArloStorage) :
  _parse_devices KEYS devices (_parse_devices KEYS devices st)
  = _parse_devices KEYS devices st.
Proof.
  apply (overlays_idempotent (_parse_devices KEYS devices)).
  apply parse_devices_overlays.
Qed.

End Persist.

Lemma parse_devices_persists_witness :
  db (_parse_devices keys0 ([B1; C1] ++ [X1]) st0)
    !! [get X1 "deviceId"; VStr "deviceType"] = Some (get X1 "deviceType")
  ∧ ((∀ d, d ∈ [N1] → get d "deviceId" ≠ get X1 "deviceId") →
     db (_parse_devices keys0 ([B1; C1] ++ X1 :: [N1]) st0)
       !! [get X1 "deviceId"; VStr "deviceType"] = Some (get X1 "deviceType")).
Proof.
  apply (parse_devices_persists keys0 [B1; C1] [N1] X1 "deviceType" st0).
  - vm_compute. discriminate.
  - unfold keys0. apply list_elem_of_further, list_elem_of_here.
  - vm_compute. discriminate.
Defined.

(** ** Device reload *)

(** C10.  The device reload replaces the raw inventory and leaves the
    bases, the cameras and the doorbells as they are; so after a slow tick
    that is due for a reload and the reload it queued, the raw inventory is
    the fetched one and the three collections are those from before the
    tick. *)
Theorem reload_keeps_collections (a : PyArlo) (now : Z) (response : list RawDevice) :
  refresh_devices_every (_cfg a) ≠ 0 →
  now > _refresh_devices_at a →
  let a' := step (_slow_refresh now a) (Reload response) in
  _devices (_refresh_devices response a) = response
  ∧ _bases (_refresh_devices response a) = _bases a
  ∧ _cameras (_refresh_devices response a) = _cameras a
  ∧ _doorbells (_refresh_devices response a) = _doorbells a
  ∧ _devices a' = response
  ∧ _bases a' = _bases a
  ∧ _cameras a' = _cameras a
  ∧ _doorbells a' = _doorbells a.
Proof.
  intros I L a'. subst a'. simpl.
  assert (J_refresh_devices ∈ queue (_bg (_slow_refresh now a))) as Q.
  { rewrite slow_refresh_queue. unfold slow_jobs.
    destruct (decide _); [|contradiction].
    destruct (decide _); [|contradiction].
    rewrite !elem_of_app. right. right. by apply list_elem_of_singleton. }
  rewrite (bool_decide_eq_true_2 _ Q).
  destruct (slow_refresh_frame now a) as (_ & _ & B & C & D & _).
  repeat split; assumption.
Qed.

Lemma reload_keeps_collections_witness :
  let a' := step (_slow_refresh 25 arlo0) (Reload [B1; C1; Q1]) in
  _devices (_refresh_devices [B1; C1; Q1] arlo0) = [B1; C1; Q1]
  ∧ _bases (_refresh_devices [B1; C1; Q1] arlo0) = _bases arlo0
  ∧ _cameras (_refresh_devices [B1; C1; Q1] arlo0) = _cameras arlo0
  ∧ _doorbells (_refresh_devices [B1; C1; Q1] arlo0) = _doorbells arlo0
  ∧ _devices a' = [B1; C1; Q1]
  ∧ _bases a' = _bases arlo0
  ∧ _cameras a' = _cameras arlo0
  ∧ _doorbells a' = _doorbells arlo0.
Proof.
  apply (reload_keeps_collections arlo0 25 [B1; C1; Q1]); simpl; lia.
Defined.

(** * Further properties of the orchestrator *)

(** ** The classifier as a whole *)

Lemma classify_from_exact (l : list RawDevice) (c r : classified) :
  classify_from c l = Ok r →
  c_bases r = c_bases c
              ++ map (fun d => ArloBase (get d "deviceName") d) (base_devices l)
  ∧ c_cameras r = c_cameras c
                  ++ map (fun d => ArloCamera (get d "deviceName") d) (camera_devices l)
  ∧ c_doorbells r = c_doorbells c
                    ++ map (fun d => ArloDoorBell (get d "deviceName") d)
                         (doorbell_devices l)
  ∧ map Some (c_info r)
    = map Some (c_info c)
      ++ map (fun d => skip_line <$> str_name d) (skipped_devices l).
Proof.
  revert c. induction l as [|d l IH]; intros c; simpl.
  - intros [= <-]. by rewrite !app_nil_r.
  - destruct (classify_device c d) as [c'|e] eqn:E; simpl; [|discriminate].
    intros R. apply IH in R as (B & C & D & I).
    unfold base_devices, camera_devices, doorbell_devices, skipped_devices.
    simpl. destruct (decide (provisioned d)) as [P|N].
    + rewrite classify_device_provisioned in E by assumption.
      injection E as <-. simpl in *.
      rewrite (bool_decide_eq_true_2 _ P). simpl.
      rewrite B, C, D, I.
      destruct (is_base _ d), (is_camera _), (is_doorbell _); simpl;
        rewrite <- ?app_assoc; repeat split.
    + rewrite classify_device_skipped in E by assumption.
      rewrite (bool_decide_eq_false_2 _ N). simpl.
      unfold str_name. destruct (get d "deviceName"); try discriminate.
      injection E as <-. simpl in *.
      rewrite B, C, D, I, map_app, <- app_assoc. repeat split.
Qed.

Lemma classify_is_filter_aux (devices : list RawDevice) (r : classified) :
  classify devices = Ok r →
  c_bases r = map (fun d => ArloBase (get d "deviceName") d) (base_devices devices)
  ∧ c_cameras r
    = map (fun d => ArloCamera (get d "deviceName") d) (camera_devices devices)
  ∧ c_doorbells r
    = map (fun d => ArloDoorBell (get d "deviceName") d) (doorbell_devices devices).
Proof.
  intros R. apply classify_from_exact in R as (B & C & D & _).
  simpl in *. auto.
Qed.

(** X1.  When the classifier returns, its three collections are the
    provisioned devices that pass the base test, the camera test and the
    doorbell test, each in inventory order and each with the device's
    [deviceName] as its name. *)
Theorem classify_is_filter (devices : list RawDevice) (r : classified) :
  classify devices = Ok r →
  c_bases r = map (fun d => ArloBase (get d "deviceName") d) (base_devices devices)
  ∧ c_cameras r
    = map (fun d => ArloCamera (get d "deviceName") d) (camera_devices devices)
  ∧ c_doorbells r
    = map (fun d => ArloDoorBell (get d "deviceName") d) (doorbell_devices devices).
Proof.
  apply classify_is_filter_aux.
Qed.

Lemma classify_is_filter_witness :
  c_bases (mkClassified [ArloBase VNone B1; ArloBase (VStr "Hall") Q1]
             [ArloCamera VNone C1; ArloCamera (VStr "Hall") Q1] []
             [skip_line "Porch"])
  = map (fun d => ArloBase (get d "deviceName") d) (base_devices [B1; C1; N1; Q1])
  ∧ c_cameras (mkClassified [ArloBase VNone B1; ArloBase (VStr "Hall") Q1]
                 [ArloCamera VNone C1; ArloCamera (VStr "Hall") Q1] []
                 [skip_line "Porch"])
    = map (fun d => ArloCamera (get d "deviceName") d) (camera_devices [B1; C1; N1; Q1])
  ∧ c_doorbells (mkClassified [ArloBase VNone B1; ArloBase (VStr "Hall") Q1]
                   [ArloCamera VNone C1; ArloCamera (VStr "Hall") Q1] []
                   [skip_line "Porch"])
    = map (fun d => ArloDoorBell (get d "deviceName") d)
        (doorbell_devices [B1; C1; N1; Q1]).
Proof.
  apply (classify_is_filter [B1; C1; N1; Q1]). vm_compute. reflexivity.
Defined.

(** X2.  When the classifier returns, it has logged one line per skipped
    device, in inventory order, each naming the device. *)
Theorem classify_logs_each_skip (devices : list RawDevice) (r : classified) :
  classify devices = Ok r →
  map Some (c_info r) = map (fun d => skip_line <$> str_name d) (skipped_devices devices)
  ∧ length (c_info r) = length (skipped_devices devices).
Proof.
  intros R. apply classify_from_exact in R as (_ & _ & _ & I). simpl in I.
  split; [exact I|].
  apply (f_equal length) in I. by rewrite !length_map in I.
Qed.

Lemma classify_logs_each_skip_witness :
  map Some (c_info (mkClassified [ArloBase VNone B1; ArloBase (VStr "Hall") Q1]
                      [ArloCamera VNone C1; ArloCamera (VStr "Hall") Q1] []
                      [skip_line "Porch"]))
  = map (fun d => skip_line <$> str_name d) (skipped_devices [B1; C1; N1; Q1])
  ∧ length (c_info (mkClassified [ArloBase VNone B1; ArloBase (VStr "Hall") Q1]
                      [ArloCamera VNone C1; ArloCamera (VStr "Hall") Q1] []
                      [skip_line "Porch"]))
    = length (skipped_devices [B1; C1; N1; Q1]).
Proof.
  apply (classify_logs_each_skip [B1; C1; N1; Q1]). vm_compute. reflexivity.
Defined.

Lemma classify_device_outcome (c : classified) (d : RawDevice) :
  if classifiable d then ∃ c', classify_device c d = Ok c'
  else classify_device c d = Raise TypeError.
Proof.
  unfold classifiable. destruct (decide (provisioned d)) as [P|N].
  - rewrite (bool_decide_eq_true_2 _ P). simpl.
    rewrite classify_device_provisioned by assumption. by eexists.
  - rewrite (bool_decide_eq_false_2 _ N). simpl.
    rewrite classify_device_skipped by assumption.
    destruct (get d "deviceName"); try reflexivity. by eexists.
Qed.

Lemma classify_from_outcome (l : list RawDevice) (c : classified) :
  if forallb classifiable l then ∃ r, classify_from c l = Ok r
  else classify_from c l = Raise TypeError.
Proof.
  revert c. induction l as [|d l IH]; intros c; simpl; [by exists c|].
  pose proof (classify_device_outcome c d) as H.
  destruct (classifiable d); simpl.
  - destruct H as [c' ->]. simpl. apply IH.
  - by rewrite H.
Qed.

(** X3.  The classifier returns exactly when every device that is not
    provisioned has a string as its [deviceName]; on any other inventory it
    raises [TypeError]. *)
Theorem classify_returns_iff (devices : list RawDevice) :
  ((∃ r, classify devices = Ok r) ↔ forallb classifiable devices = true)
  ∧ (classify devices = Raise TypeError ↔ forallb classifiable devices = false).
Proof.
  pose proof (classify_from_outcome devices no_devices) as H.
  unfold classify. destruct (forallb classifiable devices).
  - destruct H as [r H]. rewrite H. split; split; try discriminate; eauto.
  - rewrite H. split; split; try discriminate; try reflexivity.
    intros [r [=]].
Qed.

Lemma camera_not_doorbell (dtype : pyval) :
  is_camera dtype && is_doorbell dtype = false.
Proof.
  unfold is_camera, is_doorbell.
  destruct (decide (dtype = VStr "doorbell")) as [->|N]; [reflexivity|].
  rewrite (bool_decide_eq_false_2 _ N). apply andb_false_r.
Qed.

Lemma filter_exclusive_length {A : Type} (p q : A → bool) (l : list A) :
  (∀ x, p x && q x = false) →
  (length (List.filter p l) + length (List.filter q l) ≤ length l)%nat.
Proof.
  intros X. induction l as [|x l IH]; simpl; [lia|].
  specialize (X x). destruct (p x), (q x); simpl in *; try discriminate; lia.
Qed.

Lemma filter_length_le {A : Type} (p : A → bool) (l : list A) :
  (length (List.filter p l) ≤ length l)%nat.
Proof.
  induction l as [|x l IH]; simpl; [lia|]. destruct (p x); simpl; lia.
Qed.

(** X4.  When the classifier returns, no device has become both a camera
    and a doorbell, so cameras and doorbells together are no more than the
    devices, and all records together are no more than twice the devices. *)
Theorem classify_at_most_two_records (devices : list RawDevice) (r : classified) :
  classify devices = Ok r →
  (length (c_cameras r) + length (c_doorbells r) ≤ length devices)%nat
  ∧ (length (c_bases r) ≤ length devices)%nat
  ∧ (length (records r) ≤ 2 * length devices)%nat.
Proof.
  intros R. apply classify_from_exact in R as (B & C & D & _). simpl in *.
  assert (length (c_cameras r) + length (c_doorbells r) ≤ length devices)%nat as CD.
  { rewrite C, D, !length_map. apply filter_exclusive_length.
    intros d. destruct (bool_decide (provisioned d)); simpl; [|reflexivity].
    apply camera_not_doorbell. }
  assert (length (c_bases r) ≤ length devices)%nat as Bs.
  { rewrite B, length_map. apply filter_length_le. }
  repeat split; try assumption.
  unfold records. rewrite !length_app. lia.
Qed.

Lemma classify_at_most_two_records_witness :
  let r := mkClassified [ArloBase VNone B1; ArloBase (VStr "Hall") Q1]
             [ArloCamera VNone C1; ArloCamera (VStr "Hall") Q1] []
             [skip_line "Porch"] in
  (length (c_cameras r) + length (c_doorbells r) ≤ length [B1; C1; N1; Q1])%nat
  ∧ (length (c_bases r) ≤ length [B1; C1; N1; Q1])%nat
  ∧ (length (records r) ≤ 2 * length [B1; C1; N1; Q1])%nat.
Proof.
  apply (classify_at_most_two_records [B1; C1; N1; Q1]). vm_compute. reflexivity.
Defined.

Lemma built_from_filter (k : kind) (p : RawDevice → bool) (devices : list RawDevice)
    (rec : DeviceRecord) :
  rec ∈ map (fun d => mkDevice k (get d "deviceName") d) (List.filter p devices) →
  dev_kind rec = k ∧ name rec = get (attrs rec) "deviceName"
  ∧ attrs rec ∈ devices ∧ p (attrs rec) = true.
Proof.
  intros H. apply list_elem_of_fmap in H as (d & -> & H). simpl.
  apply list_elem_of_In, filter_In in H as [H P].
  repeat split; [by apply list_elem_of_In | exact P].
Qed.

(** X5.  When the classifier returns, every record was built from a device
    of the inventory that is provisioned and passes the test of the
    record's kind, carries that device's [deviceName] as its name, and sits
    in the collection of its kind. *)
Theorem classify_sound (devices : list RawDevice) (r : classified) (rec : DeviceRecord) :
  classify devices = Ok r →
  rec ∈ records r →
  attrs rec ∈ devices
  ∧ provisioned (attrs rec)
  ∧ kind_test (dev_kind rec) (attrs rec) = true
  ∧ name rec = get (attrs rec) "deviceName"
  ∧ rec ∈ match dev_kind rec with
          | Base => c_bases r
          | Camera => c_cameras r
          | Doorbell => c_doorbells r
          end.
Proof.
  intros R H. apply classify_is_filter_aux in R as (B & C & D).
  unfold records in H. rewrite !elem_of_app in H.
  destruct H as [H|[H|H]]; pose proof H as H';
    [rewrite B in H | rewrite C in H | rewrite D in H];
    apply built_from_filter in H as (K & Nm & In & P);
    apply andb_true_iff in P as [P T]; apply bool_decide_eq_true in P;
    rewrite K; repeat split; assumption.
Qed.

Lemma classify_sound_witness :
  let r := mkClassified [ArloBase VNone B1; ArloBase (VStr "Hall") Q1]
             [ArloCamera VNone C1; ArloCamera (VStr "Hall") Q1] []
             [skip_line "Porch"] in
  let rec := ArloCamera (VStr "Hall") Q1 in
  attrs rec ∈ [B1; C1; N1; Q1]
  ∧ provisioned (attrs rec)
  ∧ kind_test (dev_kind rec) (attrs rec) = true
  ∧ name rec = get (attrs rec) "deviceName"
  ∧ rec ∈ match dev_kind rec with
          | Base => c_bases r
          | Camera => c_cameras r
          | Doorbell => c_doorbells r
          end.
Proof.
  apply (classify_sound [B1; C1; N1; Q1]).
  - vm_compute. reflexivity.
  - unfold records. simpl. do 3 apply list_elem_of_further. apply list_elem_of_here.
Defined.

(** ** Lookups *)

Lemma first_match_Some {A : Type} (p : A → bool) (l : list A) (x : A) :
  first_match p l = Some x
  ↔ ∃ l1 l2, l = l1 ++ x :: l2 ∧ p x = true ∧ Forall (fun y => p y = false) l1.
Proof.
  unfold first_match. induction l as [|y l IH]; simpl.
  - split; [discriminate|]. intros (l1 & l2 & E & _). by destruct l1.
  - destruct (p y) eqn:Py.
    + split.
      * intros [= ->]. exists [], l. auto.
      * intros (l1 & l2 & E & Px & F). destruct l1 as [|z l1].
        -- by injection E as ->.
        -- injection E as -> _. apply Forall_cons in F as [F _]. congruence.
    + rewrite IH. split.
      * intros (l1 & l2 & -> & Px & F). exists (y :: l1), l2.
        repeat split; [assumption | by constructor].
      * intros (l1 & l2 & E & Px & F). destruct l1 as [|z l1].
        -- injection E as -> _. congruence.
        -- injection E as -> ->. apply Forall_cons in F as [_ F].
           by exists l1, l2.
Qed.

Lemma first_match_None {A : Type} (p : A → bool) (l : list A) :
  first_match p l = None ↔ Forall (fun y => p y = false) l.
Proof.
  unfold first_match. induction l as [|y l IH]; simpl.
  - split; [constructor | reflexivity].
  - destruct (p y) eqn:Py.
    + split; [discriminate|]. intros F. apply Forall_cons in F as [F _]. congruence.
    + rewrite IH. split; [by constructor|]. intros F. by apply Forall_cons in F as [_ F].
Qed.

(** X6.  A lookup by identifier returns the first record of its collection,
    in collection order, whose device identifier equals the argument, and
    returns nothing exactly when no record of the collection does, the
    empty collection included; cameras are looked up among the cameras and
    doorbells among the doorbells. *)
Theorem lookup_by_id_first_match (id : pyval) (a : PyArlo) :
  (∀ cam, lookup_camera_by_id id a = Some cam
          ↔ ∃ l1 l2, _cameras a = l1 ++ cam :: l2
                     ∧ py_eq (device_id cam) id = true
                     ∧ Forall (fun c => py_eq (device_id c) id = false) l1)
  ∧ (lookup_camera_by_id id a = None
     ↔ Forall (fun c => py_eq (device_id c) id = false) (_cameras a))
  ∧ (∀ bell, lookup_doorbell_by_id id a = Some bell
             ↔ ∃ l1 l2, _doorbells a = l1 ++ bell :: l2
                        ∧ py_eq (device_id bell) id = true
                        ∧ Forall (fun c => py_eq (device_id c) id = false) l1)
  ∧ (lookup_doorbell_by_id id a = None
     ↔ Forall (fun c => py_eq (device_id c) id = false) (_doorbells a)).
Proof.
  repeat split;
    try apply (first_match_Some (fun cam => py_eq (device_id cam) id));
    try apply (first_match_None (fun cam => py_eq (device_id cam) id)).
Qed.

(** X7.  A lookup by name returns the first record of its collection, in
    collection order, whose name equals the argument, and returns nothing
    exactly when no record of the collection has that name. *)
Theorem lookup_by_name_first_match (nm : pyval) (a : PyArlo) :
  (∀ cam, lookup_camera_by_name nm a = Some cam
          ↔ ∃ l1 l2, _cameras a = l1 ++ cam :: l2
                     ∧ py_eq (name cam) nm = true
                     ∧ Forall (fun c => py_eq (name c) nm = false) l1)
  ∧ (lookup_camera_by_name nm a = None
     ↔ Forall (fun c => py_eq (name c) nm = false) (_cameras a))
  ∧ (∀ bell, lookup_doorbell_by_name nm a = Some bell
             ↔ ∃ l1 l2, _doorbells a = l1 ++ bell :: l2
                        ∧ py_eq (name bell) nm = true
                        ∧ Forall (fun c => py_eq (name c) nm = false) l1)
  ∧ (lookup_doorbell_by_name nm a = None
     ↔ Forall (fun c => py_eq (name c) nm = false) (_doorbells a)).
Proof.
  repeat split;
    try apply (first_match_Some (fun cam => py_eq (name cam) nm));
    try apply (first_match_None (fun cam => py_eq (name cam) nm)).
Qed.


Lemma py_eq_str (v : pyval) (s : string) : py_eq v (VStr s) = true ↔ v = VStr s.
Proof. destruct v; unfold py_eq; apply bool_decide_eq_true. Qed.

(** ** Metadata persistence, further *)

Lemma parse_keys_disk (keys : list string) (id : pyval) (device : RawDevice)
    (st : ArloStorage) :
  disk (parse_keys keys id device st) = disk st.
Proof.
  unfold parse_keys. induction keys as [|k keys IH] using rev_ind; [reflexivity|].
  rewrite foldl_snoc. by destruct (decide _).
Qed.

(** What the inner loop leaves under a path: the binding from before, or a
    tracked non-null field of the device under its identifier and key. *)
Lemma parse_keys_changes (keys : list string) (id : pyval) (device : RawDevice)
    (st : ArloStorage) (path : list pyval) :
  db (parse_keys keys id device st) !! path = db st !! path
  ∨ ∃ key, key ∈ keys ∧ path = [id; VStr key] ∧ get device key ≠ VNone
           ∧ db (parse_keys keys id device st) !! path = Some (get device key).
Proof.
  unfold parse_keys. induction keys as [|k keys IH] using rev_ind; [by left|].
  rewrite foldl_snoc. destruct (decide (get device k ≠ VNone)) as [NN|_].
  - simpl. destruct (decide ([id; VStr k] = path)) as [<-|Np].
    + right. exists k. rewrite lookup_insert_eq.
      repeat split; [apply elem_of_app; right; by apply list_elem_of_singleton
                    | assumption].
    + rewrite lookup_insert_ne by assumption.
      destruct IH as [IH|(key & In & E & NN' & L)]; [by left|].
      right. exists key. repeat split; try assumption.
      apply elem_of_app. by left.
  - destruct IH as [IH|(key & In & E & NN' & L)]; [by left|].
    right. exists key. repeat split; try assumption.
    apply elem_of_app. by left.
Qed.

(** A field that is null in the device is not written, under any
    identifier. *)
Lemma parse_keys_null_field (keys : list string) (id id' : pyval)
    (device : RawDevice) (st : ArloStorage) (key : string) :
  get device key = VNone →
  db (parse_keys keys id device st) !! [id'; VStr key] = db st !! [id'; VStr key].
Proof.
  intros E.
  destruct (parse_keys_changes keys id device st [id'; VStr key])
    as [H|(k & _ & [= _ <-] & NN & _)]; [exact H | contradiction].
Qed.

Section PersistFurther.

Variable KEYS : list string.

Lemma parse_device_disk (device : RawDevice) (st : ArloStorage) :
  disk (parse_device KEYS st device) = disk st.
Proof.
  unfold parse_device. destruct (decide _); [apply parse_keys_disk | reflexivity].
Qed.

Lemma parse_device_changes (device : RawDevice) (st : ArloStorage) (path : list pyval) :
  db (parse_device KEYS st device) !! path = db st !! path
  ∨ ∃ key, key ∈ KEYS ∧ get device "deviceId" ≠ VNone
           ∧ path = [get device "deviceId"; VStr key] ∧ get device key ≠ VNone
           ∧ db (parse_device KEYS st device) !! path = Some (get device key).
Proof.
  unfold parse_device. destruct (decide _) as [Id|_]; [|by left].
  destruct (parse_keys_changes KEYS (get device "deviceId") device st path)
    as [H|(key & In & E & NN & L)]; [by left|].
  right. by exists key.
Qed.

Lemma parse_devices_writes_only_tracked_disk (devices : list RawDevice)
    (st : ArloStorage) :
  disk (_parse_devices KEYS devices st) = disk st.
Proof.
  unfold _parse_devices.
  induction devices as [|d devices IH] using rev_ind; [reflexivity|].
  by rewrite foldl_snoc, parse_device_disk.
Qed.

(** X8.  The metadata persistence never writes to the durable copy, and
    under every path it leaves either the binding from before or a tracked,
    non-null field of a device of the inventory whose [deviceId] is not
    null, stored under that identifier and the field's key.  So a device
    without identifier, an untracked field and a null field leave no
    trace, and [None] is never stored. *)
Theorem parse_devices_writes_only_tracked (devices : list RawDevice)
    (st : ArloStorage) (path : list pyval) :
  disk (_parse_devices KEYS devices st) = disk st
  ∧ (db (_parse_devices KEYS devices st) !! path = db st !! path
     ∨ ∃ device key,
         device ∈ devices ∧ key ∈ KEYS ∧ get device "deviceId" ≠ VNone
         ∧ path = [get device "deviceId"; VStr key] ∧ get device key ≠ VNone
         ∧ db (_parse_devices KEYS devices st) !! path = Some (get device key)).
Proof.
  unfold _parse_devices.
  induction devices as [|d devices [D IH]] using rev_ind;
    [split; [reflexivity | by left]|].
  rewrite foldl_snoc. split; [by rewrite parse_device_disk|].
  destruct (parse_device_changes d (foldl (parse_device KEYS) st devices) path)
    as [H|(key & In & Id & E & NN & L)].
  - rewrite H. destruct IH as [IH|(device & key & In & K & Id & E & NN & L)];
      [by left|].
    right. exists device, key. repeat split; try assumption.
    apply elem_of_app. by left.
  - right. exists d, key. repeat split; try assumption.
    apply elem_of_app. right. by apply list_elem_of_singleton.
Qed.

Lemma parse_device_no_overwrite (d : RawDevice) (st : ArloStorage) (id : pyval)
    (key : string) :
  (get d "deviceId" = id → get d key = VNone) →
  db (parse_device KEYS st d) !! [id; VStr key] = db st !! [id; VStr key].
Proof.
  intros H. unfold parse_device. destruct (decide _) as [_|_]; [|reflexivity].
  destruct (decide (get d "deviceId" = id)) as [E|N].
  - subst id. apply parse_keys_null_field. by apply H.
  - apply parse_keys_elsewhere. simpl. congruence.
Qed.

Lemma parse_devices_last_write (l1 l2 : list RawDevice) (device : RawDevice)
    (key : string) (st : ArloStorage) :
  get device "deviceId" ≠ VNone →
  key ∈ KEYS →
  get device key ≠ VNone →
  (∀ d, d ∈ l2 → get d "deviceId" = get device "deviceId" → get d key = VNone) →
  db (_parse_devices KEYS (l1 ++ device :: l2) st)
    !! [get device "deviceId"; VStr key] = Some (get device key).
Proof.
  intros Id In NN Later. unfold _parse_devices.
  rewrite foldl_app. simpl.
  generalize (foldl (parse_device KEYS) st l1). intros st1.
  induction l2 as [|d l2 IH] using rev_ind.
  - simpl. unfold parse_device.
    destruct (decide _); [by apply parse_keys_stores | contradiction].
  - rewrite foldl_snoc, parse_device_no_overwrite.
    + apply IH. intros d' Hd'. apply Later, elem_of_app. by left.
    + apply Later, elem_of_app. right. by apply list_elem_of_singleton.
Qed.

(** X9.  Last write wins: when several entries of the inventory carry the
    same [deviceId], the store ends with the tracked field of the last
    entry that has it non-null. *)
Theorem parse_devices_last_write_wins (l1 l2 : list RawDevice) (device : RawDevice)
    (key : string) (st : ArloStorage) :
  get device "deviceId" ≠ VNone →
  key ∈ KEYS →
  get device key ≠ VNone →
  (∀ d, d ∈ l2 → get d "deviceId" = get device "deviceId" → get d key = VNone) →
  st_get [get device "deviceId"; VStr key] VNone
    (_parse_devices KEYS (l1 ++ device :: l2) st) = get device key.
Proof.
  intros Id In NN Later. unfold st_get.
  by rewrite parse_devices_last_write.
Qed.

End PersistFurther.

Lemma parse_devices_last_write_wins_witness :
  st_get [get X1 "deviceId"; VStr "deviceType"] VNone
    (_parse_devices keys0 ([B1] ++ X1 :: [X2; C1]) st0) = get X1 "deviceType".
Proof.
  apply (parse_devices_last_write_wins keys0 [B1] [X2; C1] X1 "deviceType" st0).
  - vm_compute. discriminate.
  - unfold keys0. apply list_elem_of_further, list_elem_of_here.
  - vm_compute. discriminate.
  - intros d Hd E. apply elem_of_cons in Hd as [->|Hd]; [vm_compute; reflexivity|].
    apply list_elem_of_singleton in Hd as ->. vm_compute in E. discriminate.
Defined.

(** ** Start-up *)

Lemma classify_from_info (l : list RawDevice) (bs cs ds : list DeviceRecord)
    (i j : list string) :
  classify_from (mkClassified bs cs ds (i ++ j)) l
  = match classify_from (mkClassified bs cs ds j) l with
    | Ok r => Ok (mkClassified (c_bases r) (c_cameras r) (c_doorbells r) (i ++ c_info r))
    | Raise e => Raise e
    end.
Proof.
  revert bs cs ds j. induction l as [|d l IH]; intros bs cs ds j; simpl;
    [reflexivity|].
  destruct (decide (provisioned d)) as [P|N].
  - rewrite !classify_device_provisioned by assumption. simpl. apply IH.
  - rewrite !classify_device_skipped by assumption. simpl.
    destruct (get d "deviceName"); try reflexivity. simpl.
    rewrite <- app_assoc. apply IH.
Qed.

Section StartupFacts.

Variable KEYS : list string.
Variables kc kb : string.
Variables fast slow : Z.

Lemma init_exact (cfg : ArloCfg) (st : ArloStorage) (today : date) (now : Z)
    (response : list RawDevice) :
  __init__ KEYS kc kb fast slow cfg st today now response
  = match classify response with
    | Ok r => Ok (started KEYS kc kb fast slow cfg st today now response r)
    | Raise e => Raise e
    end.
Proof.
  unfold __init__, classify, no_devices. simpl.
  pose proof (classify_from_info response [] [] [] ["pyaarlo starting"] []) as H.
  simpl in H. rewrite H. clear H.
  destruct (classify_from _ response) as [r|e]; simpl; [|reflexivity].
  rewrite ping_bases_eq. reflexivity.
Qed.

End StartupFacts.

Lemma arlo1_started :
  __init__ keys0 "totalCameras" "totalBells" 60 600 (mkCfg 10) st0 day1 0 inventory0
  = Ok arlo1.
Proof. vm_compute. reflexivity. Qed.

Section StartupProperties.

Variable KEYS : list string.
Variables kc kb : string.
Variables fast slow : Z.

Lemma init_started (cfg : ArloCfg) (st : ArloStorage) (today : date) (now : Z)
    (response : list RawDevice) (a : PyArlo) :
  __init__ KEYS kc kb fast slow cfg st today now response = Ok a →
  ∃ r, classify response = Ok r
       ∧ a = started KEYS kc kb fast slow cfg st today now response r.
Proof.
  rewrite init_exact. destruct (classify response) as [r|e]; [|discriminate].
  intros [= <-]. by exists r.
Qed.

(** X10.  [__init__] raises exactly when the classifier raises on the
    fetched inventory; otherwise it returns an orchestrator whose bases,
    cameras and doorbells are the classifier's, whose raw inventory is the
    fetched one and whose session is open. *)
Theorem init_follows_classifier (cfg : ArloCfg) (st : ArloStorage) (today : date)
    (now : Z) (response : list RawDevice) :
  match classify response with
  | Ok r =>
      ∃ a, __init__ KEYS kc kb fast slow cfg st today now response = Ok a
           ∧ _bases a = c_bases r ∧ _cameras a = c_cameras r
           ∧ _doorbells a = c_doorbells r
           ∧ _info a = "pyaarlo starting" :: c_info r
           ∧ _devices a = response ∧ logged_in (_be a) = true
  | Raise e => __init__ KEYS kc kb fast slow cfg st today now response = Raise e
  end.
Proof.
  rewrite init_exact. destruct (classify response) as [r|e]; [|reflexivity].
  eexists. split; [reflexivity|]. repeat split.
Qed.

(** X11.  After start-up the attribute under the doorbell-count key is the
    number of doorbells, and, when the two count keys differ, the attribute
    under the camera-count key is the number of cameras. *)
Theorem init_persists_counts (cfg : ArloCfg) (st : ArloStorage) (today : date)
    (now : Z) (response : list RawDevice) (a : PyArlo) :
  __init__ KEYS kc kb fast slow cfg st today now response = Ok a →
  attribute (VStr kb) a = VInt (Z.of_nat (length (_doorbells a)))
  ∧ (kc ≠ kb → attribute (VStr kc) a = VInt (Z.of_nat (length (_cameras a)))).
Proof.
  intros I. apply init_started in I as (r & _ & ->).
  unfold attribute, st_get, started, st_set. simpl. split.
  - by rewrite lookup_insert_eq.
  - intros N. rewrite lookup_insert_ne by congruence. by rewrite lookup_insert_eq.
Qed.

(** X12.  After start-up the runner holds one ping per base, in the order
    of the bases, and nothing else to run at once; the four delayed jobs
    with delays 2, 2, 5 and 10; and the fast and the slow cadence, each
    registered once.  The stored date is the construction date and the
    reload deadline is the construction clock reading plus the interval. *)
Theorem init_schedules (cfg : ArloCfg) (st : ArloStorage) (today : date)
    (now : Z) (response : list RawDevice) (a : PyArlo) :
  __init__ KEYS kc kb fast slow cfg st today now response = Ok a →
  queue (_bg a) = map J_async_ping (_bases a)
  ∧ timers (_bg a) = [(J_refresh_camera_thumbnails, 2); (J_refresh_camera_media, 2);
                      (J_initial_refresh, 5); (J_ml_load, 10)]
  ∧ cron (_bg a) = [(J_fast_refresh, fast); (J_slow_refresh, slow)]
  ∧ _today a = today
  ∧ _refresh_devices_at a = now + refresh_devices_every cfg.
Proof.
  intros I. apply init_started in I as (r & _ & ->). repeat split.
Qed.

(** X13.  Start-up leaves the durable copy of the store alone, and a
    tracked non-null field of a device with a non-null identifier other
    than "ARLO" can be read back from the store after start-up, provided no
    later entry with the same identifier has that field non-null. *)
Theorem init_keeps_metadata (cfg : ArloCfg) (st : ArloStorage) (today : date)
    (now : Z) (l1 l2 : list RawDevice) (device : RawDevice) (key : string)
    (a : PyArlo) :
  __init__ KEYS kc kb fast slow cfg st today now (l1 ++ device :: l2) = Ok a →
  get device "deviceId" ≠ VNone →
  get device "deviceId" ≠ VStr "ARLO" →
  key ∈ KEYS →
  get device key ≠ VNone →
  (∀ d, d ∈ l2 → get d "deviceId" = get device "deviceId" → get d key = VNone) →
  disk (_st a) = disk st
  ∧ st_get [get device "deviceId"; VStr key] VNone (_st a) = get device key.
Proof.
  intros I Id NA In NN Later. apply init_started in I as (r & _ & ->).
  unfold st_get, started, st_set. simpl. split.
  - destruct (parse_devices_writes_only_tracked_disk KEYS (l1 ++ device :: l2) st).
    reflexivity.
  - rewrite !lookup_insert_ne by congruence.
    by rewrite parse_devices_last_write.
Qed.

End StartupProperties.

Lemma init_persists_counts_witness :
  attribute (VStr "totalBells") arlo1 = VInt (Z.of_nat (length (_doorbells arlo1)))
  ∧ ("totalCameras" ≠ "totalBells" →
     attribute (VStr "totalCameras") arlo1 = VInt (Z.of_nat (length (_cameras arlo1)))).
Proof.
  apply (init_persists_counts keys0 "totalCameras" "totalBells" 60 600
           (mkCfg 10) st0 day1 0 inventory0 arlo1).
  vm_compute. reflexivity.
Defined.

Lemma init_schedules_witness :
  queue (_bg arlo1) = map J_async_ping (_bases arlo1)
  ∧ timers (_bg arlo1) = [(J_refresh_camera_thumbnails, 2); (J_refresh_camera_media, 2);
                          (J_initial_refresh, 5); (J_ml_load, 10)]
  ∧ cron (_bg arlo1) = [(J_fast_refresh, 60); (J_slow_refresh, 600)]
  ∧ _today arlo1 = day1
  ∧ _refresh_devices_at arlo1 = 0 + refresh_devices_every (mkCfg 10).
Proof.
  apply (init_schedules keys0 "totalCameras" "totalBells" 60 600
           (mkCfg 10) st0 day1 0 inventory0 arlo1).
  vm_compute. reflexivity.
Defined.

Lemma init_keeps_metadata_witness :
  disk (_st arlo1) = disk st0
  ∧ st_get [get N1 "deviceId"; VStr "deviceName"] VNone (_st arlo1)
    = get N1 "deviceName".
Proof.
  apply (init_keeps_metadata keys0 "totalCameras" "totalBells" 60 600
           (mkCfg 10) st0 day1 0 [B1; C1] [Q1; D1] N1 "deviceName" arlo1).
  - vm_compute. reflexivity.
  - vm_compute. discriminate.
  - vm_compute. discriminate.
  - unfold keys0. apply list_elem_of_here.
  - vm_compute. discriminate.
  - intros d Hd E. apply elem_of_cons in Hd as [->|Hd];
      [vm_compute in E; discriminate|].
    apply list_elem_of_singleton in Hd as ->. vm_compute in E. discriminate.
Defined.


Section StartupLookups.

Variable KEYS : list string.
Variables kc kb : string.
Variables fast slow : Z.


End StartupLookups.


(** ** The cadences, further *)

(** X15.  A slow tick that is not due, because the interval is zero or the
    clock reading is not past the deadline (a reading equal to the deadline
    is not past it), hands the runner the base refresh and the ambient
    sensor refresh only, and changes nothing but the queue. *)
Theorem slow_refresh_not_due (a : PyArlo) (now : Z) :
  refresh_devices_every (_cfg a) = 0 ∨ (now ≤ _refresh_devices_at a)%Z →
  _slow_refresh now a
  = set_bg (mkBackground
              (queue (_bg a) ++ [J_refresh_bases false; J_refresh_ambient_sensors])
              (timers (_bg a)) (cron (_bg a))) a.
Proof.
  intros H. unfold _slow_refresh. simpl.
  assert (set_bg (bg_run J_refresh_ambient_sensors
                    (bg_run (J_refresh_bases false) (_bg a))) a
          = set_bg (mkBackground
                      (queue (_bg a) ++ [J_refresh_bases false; J_refresh_ambient_sensors])
                      (timers (_bg a)) (cron (_bg a))) a) as E.
  { unfold bg_run. simpl. by rewrite <- app_assoc. }
  destruct (decide (refresh_devices_every (_cfg a) ≠ 0)) as [NZ|_]; [|exact E].
  destruct (decide (now > _refresh_devices_at a)) as [L|_]; [|exact E].
  destruct H; [contradiction | lia].
Qed.

Lemma slow_refresh_not_due_witness :
  _slow_refresh 10 arlo0
  = set_bg (mkBackground
              (queue (_bg arlo0) ++ [J_refresh_bases false; J_refresh_ambient_sensors])
              (timers (_bg arlo0)) (cron (_bg arlo0))) arlo0.
Proof.
  apply (slow_refresh_not_due arlo0 10). right. simpl. lia.
Defined.

Lemma slow_refresh_deadline (now : Z) (a : PyArlo) :
  _refresh_devices_at (_slow_refresh now a)
  = if decide (refresh_devices_every (_cfg a) ≠ 0)
    then if decide (now > _refresh_devices_at a)
         then now + refresh_devices_every (_cfg a)
         else _refresh_devices_at a
    else _refresh_devices_at a.
Proof.
  unfold _slow_refresh. simpl.
  destruct (decide (refresh_devices_every (_cfg a) ≠ 0)); [|reflexivity].
  destruct (decide (now > _refresh_devices_at a)); reflexivity.
Qed.

Lemma step_deadline_le (a : PyArlo) (ev : event) :
  (0 ≤ refresh_devices_every (_cfg a))%Z →
  (_refresh_devices_at a ≤ _refresh_devices_at (step a ev))%Z.
Proof.
  intros I. destruct ev as [today|now|response|]; simpl.
  - destruct (registered J_fast_refresh (_bg a)); [|lia].
    destruct (fast_refresh_frame today a) as (_ & _ & _ & _ & _ & ->). lia.
  - destruct (registered J_slow_refresh (_bg a)); [|lia].
    rewrite slow_refresh_deadline.
    destruct (decide _); [destruct (decide _)|]; lia.
  - destruct (bool_decide _); simpl; lia.
  - lia.
Qed.

(** X16.  With a reload interval that is not negative the reload deadline
    is never moved back: after any sequence of ticks, reloads and stops it
    is at least what it was. *)
Theorem deadline_never_rewound (a : PyArlo) (evs : list event) :
  (0 ≤ refresh_devices_every (_cfg a))%Z →
  (_refresh_devices_at a ≤ _refresh_devices_at (steps a evs))%Z.
Proof.
  revert a. induction evs as [|ev evs IH]; intros a I; [simpl; lia|].
  change (steps a (ev :: evs)) with (steps (step a ev) evs).
  etrans; [by apply (step_deadline_le a ev)|].
  apply IH. by rewrite step_cfg.
Qed.

Lemma deadline_never_rewound_witness :
  (_refresh_devices_at arlo0
   ≤ _refresh_devices_at
       (steps arlo0 [SlowTick 25; FastTick day2; SlowTick 12; Stop; SlowTick 40]))%Z.
Proof.
  apply (deadline_never_rewound arlo0). simpl. lia.
Defined.

(** X17.  Reloads are at least an interval apart on the clock: after a slow
    tick that was due at clock reading [now], a slow tick at any reading up
    to [now] plus the interval hands the runner no device reload. *)
Theorem reload_spacing (a : PyArlo) (now now' : Z) :
  refresh_devices_every (_cfg a) ≠ 0 →
  now > _refresh_devices_at a →
  (now' ≤ now + refresh_devices_every (_cfg a))%Z →
  occurrences J_refresh_devices
    (enqueued (_slow_refresh now a) (_slow_refresh now' (_slow_refresh now a)))
  = 0%nat.
Proof.
  intros NZ L L'.
  rewrite (enqueued_app _ _ _ (slow_refresh_queue now' (_slow_refresh now a))).
  unfold slow_jobs. rewrite slow_refresh_deadline.
  destruct (slow_refresh_frame now a) as (-> & _).
  destruct (decide (refresh_devices_every (_cfg a) ≠ 0)); [|contradiction].
  destruct (decide (now > _refresh_devices_at a)); [|contradiction].
  destruct (decide (now' > now + refresh_devices_every (_cfg a))); [lia|].
  reflexivity.
Qed.

Lemma reload_spacing_witness :
  occurrences J_refresh_devices
    (enqueued (_slow_refresh 25 arlo0) (_slow_refresh 35 (_slow_refresh 25 arlo0)))
  = 0%nat.
Proof.
  apply (reload_spacing arlo0 25 35); simpl; [discriminate | lia | lia].
Defined.

(** X18.  A fast tick on the stored date hands the runner the save of the
    store first and then one ping per base, in the order of the bases, and
    changes nothing but the queue. *)
Theorem fast_refresh_same_day (a : PyArlo) (today : date) :
  _today a = today →
  _fast_refresh today a
  = set_bg (mkBackground (queue (_bg a) ++ J_st_save :: map J_async_ping (_bases a))
              (timers (_bg a)) (cron (_bg a))) a.
Proof.
  intros E. unfold _fast_refresh. rewrite ping_bases_eq. simpl.
  destruct (decide (_today a ≠ today)); [contradiction|].
  unfold set_bg. simpl. by rewrite <- app_assoc.
Qed.

Lemma fast_refresh_same_day_witness :
  _fast_refresh day1 arlo0
  = set_bg (mkBackground
              (queue (_bg arlo0) ++ J_st_save :: map J_async_ping (_bases arlo0))
              (timers (_bg arlo0)) (cron (_bg arlo0))) arlo0.
Proof.
  apply (fast_refresh_same_day arlo0 day1). reflexivity.
Defined.

Lemma fast_refresh_rest (today : date) (a : PyArlo) :
  _st (_fast_refresh today a) = _st a ∧ _be (_fast_refresh today a) = _be a
  ∧ timers (_bg (_fast_refresh today a)) = timers (_bg a)
  ∧ _devices (_fast_refresh today a) = _devices a.
Proof.
  unfold _fast_refresh. rewrite ping_bases_eq. simpl.
  destruct (decide (_today a ≠ today)); simpl; repeat split.
Qed.

Lemma slow_refresh_rest (now : Z) (a : PyArlo) :
  _st (_slow_refresh now a) = _st a ∧ _be (_slow_refresh now a) = _be a
  ∧ timers (_bg (_slow_refresh now a)) = timers (_bg a)
  ∧ _devices (_slow_refresh now a) = _devices a.
Proof.
  unfold _slow_refresh. simpl.
  destruct (decide (refresh_devices_every (_cfg a) ≠ 0)); simpl;
    [destruct (decide (now > _refresh_devices_at a)); simpl|];
    repeat split.
Qed.

(** X19.  A fast tick and a slow tick can come up in either order: the
    stored date, the reload deadline, the store, the session, the
    collections and the runner's delayed and recurring jobs are the same
    after both orders, and the same jobs were queued, up to their order. *)
Theorem fast_slow_commute (a : PyArlo) (today : date) (now : Z) :
  let a1 := _slow_refresh now (_fast_refresh today a) in
  let a2 := _fast_refresh today (_slow_refresh now a) in
  _today a1 = _today a2
  ∧ _refresh_devices_at a1 = _refresh_devices_at a2
  ∧ _st a1 = _st a2 ∧ _be a1 = _be a2
  ∧ (_bases a1, _cameras a1, _doorbells a1) = (_bases a2, _cameras a2, _doorbells a2)
  ∧ timers (_bg a1) = timers (_bg a2) ∧ cron (_bg a1) = cron (_bg a2)
  ∧ enqueued a a1 ≡ₚ enqueued a a2.
Proof.
  intros a1 a2. subst a1 a2.
  set (f := _fast_refresh today a). set (s := _slow_refresh now a).
  destruct (fast_refresh_frame today a) as (Fc & Fr & Fb & Fm & Fd & Ft).
  destruct (fast_refresh_rest today a) as (Fs & Fe & Fi & _).
  destruct (slow_refresh_frame now a) as (Sc & Sr & Sb & Sm & Sd & St).
  destruct (slow_refresh_rest now a) as (Ss & Se & Si & _).
  destruct (fast_refresh_frame today s) as (Fc' & Fr' & Fb' & Fm' & Fd' & Ft').
  destruct (fast_refresh_rest today s) as (Fs' & Fe' & Fi' & _).
  destruct (slow_refresh_frame now f) as (Sc' & Sr' & Sb' & Sm' & Sd' & St').
  destruct (slow_refresh_rest now f) as (Ss' & Se' & Si' & _).
  fold f in Fc, Fr, Fb, Fm, Fd, Ft, Fs, Fe, Fi.
  fold s in Sc, Sr, Sb, Sm, Sd, St, Ss, Se, Si.
  split; [|split; [|split; [|split; [|split; [|split; [|split]]]]]].
  - rewrite St'. unfold f. by rewrite !fast_refresh_today.
  - rewrite Ft'. unfold s. rewrite !slow_refresh_deadline. by rewrite Fc, Ft.
  - congruence.
  - congruence.
  - congruence.
  - congruence.
  - congruence.
  - assert (enqueued a (_slow_refresh now f) = fast_jobs today a ++ slow_jobs now a)
      as ->.
    { apply enqueued_app. rewrite slow_refresh_queue. unfold f.
      rewrite fast_refresh_queue, <- app_assoc. f_equal. f_equal.
      unfold slow_jobs. fold f. by rewrite Fc, Ft. }
    assert (enqueued a (_fast_refresh today s) = slow_jobs now a ++ fast_jobs today a)
      as ->.
    { apply enqueued_app. rewrite fast_refresh_queue. unfold s.
      rewrite slow_refresh_queue, <- app_assoc. f_equal. f_equal.
      unfold fast_jobs. fold s. by rewrite Sb, St. }
    apply Permutation_app_comm.
Qed.

(** ** What no event changes *)

Lemma step_frame (a : PyArlo) (ev : event) :
  cron (_bg (step a ev)) = cron (_bg a)
  ∧ timers (_bg (step a ev)) = timers (_bg a)
  ∧ _bases (step a ev) = _bases a
  ∧ _cameras (step a ev) = _cameras a
  ∧ _doorbells (step a ev) = _doorbells a
  ∧ db (_st (step a ev)) = db (_st a).
Proof.
  destruct ev as [today|now|response|]; simpl.
  - destruct (registered J_fast_refresh (_bg a)); [|repeat split].
    destruct (fast_refresh_frame today a) as (_ & -> & -> & -> & -> & _).
    destruct (fast_refresh_rest today a) as (-> & _ & -> & _). repeat split.
  - destruct (registered J_slow_refresh (_bg a)); [|repeat split].
    destruct (slow_refresh_frame now a) as (_ & -> & -> & -> & -> & _).
    destruct (slow_refresh_rest now a) as (-> & _ & -> & _). repeat split.
  - destruct (bool_decide _); repeat split.
  - repeat split.
Qed.

Lemma steps_frame (evs : list event) (a : PyArlo) :
  cron (_bg (steps a evs)) = cron (_bg a)
  ∧ timers (_bg (steps a evs)) = timers (_bg a)
  ∧ _bases (steps a evs) = _bases a
  ∧ _cameras (steps a evs) = _cameras a
  ∧ _doorbells (steps a evs) = _doorbells a
  ∧ db (_st (steps a evs)) = db (_st a)
  ∧ queue (_bg a) `prefix_of` queue (_bg (steps a evs)).
Proof.
  revert a. induction evs as [|ev evs IH]; intros a; [by repeat split|].
  change (steps a (ev :: evs)) with (steps (step a ev) evs).
  destruct (IH (step a ev)) as (-> & -> & -> & -> & -> & -> & P).
  destruct (step_frame a ev) as (-> & -> & -> & -> & -> & ->).
  repeat split. etrans; [|exact P].
  rewrite step_queue. by apply prefix_app_r.
Qed.

(** X20.  No sequence of ticks, reloads and stops removes, adds or changes
    a recurring or a delayed job, changes the bases, the cameras or the
    doorbells, writes to the in-memory store, or takes a job out of the
    queue: the queue only grows at its end. *)
Theorem events_frame (evs : list event) (a : PyArlo) :
  cron (_bg (steps a evs)) = cron (_bg a)
  ∧ timers (_bg (steps a evs)) = timers (_bg a)
  ∧ _bases (steps a evs) = _bases a
  ∧ _cameras (steps a evs) = _cameras a
  ∧ _doorbells (steps a evs) = _doorbells a
  ∧ db (_st (steps a evs)) = db (_st a)
  ∧ queue (_bg a) `prefix_of` queue (_bg (steps a evs)).
Proof. apply steps_frame. Qed.

(** X25.  What the host reads stays as start-up left it: after any sequence
    of ticks, reloads (whatever inventory they fetch) and stops, the four
    lookups and [attribute] return what they returned before. *)
Theorem reads_unchanged_by_events (evs : list event) (a : PyArlo) (key : pyval) :
  lookup_camera_by_id key (steps a evs) = lookup_camera_by_id key a
  ∧ lookup_camera_by_name key (steps a evs) = lookup_camera_by_name key a
  ∧ lookup_doorbell_by_id key (steps a evs) = lookup_doorbell_by_id key a
  ∧ lookup_doorbell_by_name key (steps a evs) = lookup_doorbell_by_name key a
  ∧ attribute key (steps a evs) = attribute key a.
Proof.
  destruct (steps_frame evs a) as (_ & _ & _ & C & D & S & _).
  unfold lookup_camera_by_id, lookup_camera_by_name, lookup_doorbell_by_id,
    lookup_doorbell_by_name, attribute, st_get.
  by rewrite C, D, S.
Qed.

Lemma step_flushed (a : PyArlo) (ev : event) :
  disk (_st a) = db (_st a) → disk (_st (step a ev)) = db (_st (step a ev)).
Proof.
  intros F. destruct ev as [today|now|response|]; simpl.
  - destruct (registered J_fast_refresh (_bg a)); [|exact F].
    by destruct (fast_refresh_rest today a) as (-> & _).
  - destruct (registered J_slow_refresh (_bg a)); [|exact F].
    by destruct (slow_refresh_rest now a) as (-> & _).
  - by destruct (bool_decide _).
  - reflexivity.
Qed.

Lemma step_logged_out (a : PyArlo) (ev : event) :
  logged_in (_be a) = false → logged_in (_be (step a ev)) = false.
Proof.
  intros F. destruct ev as [today|now|response|]; simpl.
  - destruct (registered J_fast_refresh (_bg a)); [|exact F].
    by destruct (fast_refresh_rest today a) as (_ & -> & _).
  - destruct (registered J_slow_refresh (_bg a)); [|exact F].
    by destruct (slow_refresh_rest now a) as (_ & -> & _).
  - by destruct (bool_decide _).
  - reflexivity.
Qed.

(** X21.  [stop] can be called again to no further effect; after it the
    durable copy of the store equals the in-memory contents and the session
    is closed, and no later tick, reload or stop of the orchestrator undoes
    either. *)
Theorem stop_idempotent_and_lasting (a : PyArlo) (evs : list event) :
  stop (stop a) = stop a
  ∧ disk (_st (steps (stop a) evs)) = db (_st (steps (stop a) evs))
  ∧ logged_in (_be (steps (stop a) evs)) = false.
Proof.
  split; [reflexivity|].
  assert (disk (_st (stop a)) = db (_st (stop a))
          ∧ logged_in (_be (stop a)) = false) as H by (split; reflexivity).
  revert H. generalize (stop a). clear a.
  induction evs as [|ev evs IH]; intros a [F L]; [by split|].
  change (steps a (ev :: evs)) with (steps (step a ev) evs).
  apply IH. split; [by apply step_flushed | by apply step_logged_out].
Qed.

(** ** The bodies of the refresh jobs *)

Lemma foldl_snoc_map {A B : Type} (g : A → B) (l : list A) (acc : list B) :
  foldl (fun calls x => calls ++ [g x]) acc l = acc ++ map g l.
Proof.
  revert acc. induction l as [|x l IH]; intros acc; simpl.
  - by rewrite app_nil_r.
  - by rewrite IH, <- app_assoc.
Qed.

(** X22.  Each of the three camera refreshes makes exactly one call per
    camera, in the order of the cameras, and none when there is no
    camera. *)
Theorem camera_refreshes_visit_each_camera (a : PyArlo) :
  _refresh_camera_thumbnails a = map update_last_image (_cameras a)
  ∧ _refresh_camera_media a = map update_media (_cameras a)
  ∧ _refresh_ambient_sensors a = map update_ambient_sensors (_cameras a).
Proof.
  unfold _refresh_camera_thumbnails, _refresh_camera_media, _refresh_ambient_sensors.
  by rewrite !foldl_snoc_map.
Qed.

Lemma refresh_bases_flat (initial : bool) (l : list DeviceRecord) (acc : list call) :
  foldl (fun calls base =>
           let calls := calls ++ [update_modes base] in
           let calls := if initial then calls ++ [update_mode base] else calls in
           let calls := calls ++ [notify base (mkBody "get" "cameras" false)] in
           calls ++ [notify base (mkBody "get" "doorbells" false)])
        acc l
  = acc ++ flat_map (base_calls initial) l.
Proof.
  revert acc. induction l as [|b l IH]; intros acc; simpl.
  - by rewrite app_nil_r.
  - rewrite IH. unfold base_calls. destruct initial; simpl;
      rewrite <- !app_assoc; reflexivity.
Qed.

Lemma update_mode_in_base_calls (initial : bool) (b base : DeviceRecord) :
  update_mode base ∈ base_calls initial b ↔ initial = true ∧ base = b.
Proof.
  unfold base_calls. destruct initial; simpl; split.
  - intros H. repeat (apply elem_of_cons in H as [H|H]; [try discriminate|]).
    + by injection H as ->.
    + by apply elem_of_nil in H.
  - intros [_ ->]. apply list_elem_of_further, list_elem_of_here.
  - intros H. repeat (apply elem_of_cons in H as [H|H]; [try discriminate|]).
    by apply elem_of_nil in H.
  - intros [[=] _].
Qed.

Lemma update_mode_in_refresh_bases (initial : bool) (a : PyArlo) (base : DeviceRecord) :
  update_mode base ∈ _refresh_bases initial a ↔ initial = true ∧ base ∈ _bases a.
Proof.
  unfold _refresh_bases. rewrite refresh_bases_flat. simpl.
  rewrite list_elem_of_In, in_flat_map. split.
  - intros (b & In & H). apply list_elem_of_In, update_mode_in_base_calls in H
      as [-> ->]. split; [reflexivity | by apply list_elem_of_In].
  - intros [-> In]. exists base. split; [by apply list_elem_of_In|].
    by apply list_elem_of_In, update_mode_in_base_calls.
Qed.

(** X23.  The base refresh goes through the bases in order and on each one
    updates the modes, updates the active mode when it is the initial
    refresh and only then, and asks the base for its cameras and for its
    doorbells; so it makes four calls per base when initial, three
    otherwise, and none when there is no base. *)
Theorem refresh_bases_calls (initial : bool) (a : PyArlo) :
  _refresh_bases initial a = flat_map (base_calls initial) (_bases a)
  ∧ length (_refresh_bases initial a)
    = ((if initial then 4 else 3) * length (_bases a))%nat
  ∧ ∀ base, update_mode base ∈ _refresh_bases initial a
            ↔ initial = true ∧ base ∈ _bases a.
Proof.
  split; [|split].
  - unfold _refresh_bases. by rewrite refresh_bases_flat.
  - unfold _refresh_bases. rewrite refresh_bases_flat. simpl.
    induction (_bases a) as [|b l IH]; simpl; [by destruct initial|].
    rewrite length_app, IH. unfold base_calls. destruct initial; simpl; lia.
  - intros base. apply update_mode_in_refresh_bases.
Qed.

Lemma tick_jobs_known (a : PyArlo) (ev : event) (j : job) :
  j ∈ step_jobs a ev →
  j = J_st_save ∨ (∃ base, j = J_async_ping base) ∨ j = J_ml_load
  ∨ j = J_refresh_camera_media ∨ j = J_refresh_bases false
  ∨ j = J_refresh_ambient_sensors ∨ j = J_refresh_devices.
Proof.
  destruct ev as [today|now|response|]; simpl; intros H;
    try by apply elem_of_nil in H.
  - destruct (registered J_fast_refresh (_bg a)); [|by apply elem_of_nil in H].
    unfold fast_jobs in H. rewrite !elem_of_app in H.
    destruct H as [H|[H|H]].
    + apply list_elem_of_singleton in H. by left.
    + apply list_elem_of_fmap in H as (b & -> & _). right. left. by exists b.
    + destruct (decide (_today a ≠ today)); [|by apply elem_of_nil in H].
      apply elem_of_cons in H as [->|H]; [by do 2 right; left|].
      apply list_elem_of_singleton in H as ->. by do 3 right; left.
  - destruct (registered J_slow_refresh (_bg a)); [|by apply elem_of_nil in H].
    unfold slow_jobs in H. rewrite !elem_of_app in H.
    destruct H as [H|H].
    + apply elem_of_cons in H as [->|H]; [by do 4 right; left|].
      apply list_elem_of_singleton in H as ->. by do 5 right; left.
    + destruct (decide _); [destruct (decide _)|];
        try by apply elem_of_nil in H.
      apply list_elem_of_singleton in H as ->. by do 6 right.
Qed.

Lemma no_update_mode_in_map (g : DeviceRecord → call) (l : list DeviceRecord)
    (base : DeviceRecord) :
  (∀ c, g c ≠ update_mode base) → update_mode base ∉ map g l.
Proof.
  intros N H. apply list_elem_of_fmap in H as (c & E & _). by apply (N c).
Qed.

(** X24.  The active mode of a base is asked for by the initial refresh
    only.  [_initial_refresh] queues the base refresh with [initial] true,
    which updates the active mode of every base.  Every job a fast tick, a
    slow tick, a reload or a stop queues is the save of the store, a ping,
    the media library load, the camera media refresh, the base refresh with
    [initial] false, the ambient sensor refresh or the device reload; and
    neither the base refresh with [initial] false nor any of the three
    camera refreshes updates an active mode, whatever the state it runs
    in. *)
Theorem active_mode_only_at_initial_refresh (a : PyArlo) :
  (J_refresh_bases true ∈ enqueued a (_initial_refresh a)
   ∧ ∀ base, base ∈ _bases a →
             update_mode base ∈ _refresh_bases true (_initial_refresh a))
  ∧ (∀ ev j, j ∈ enqueued a (step a ev) →
             j = J_st_save ∨ (∃ base, j = J_async_ping base) ∨ j = J_ml_load
             ∨ j = J_refresh_camera_media ∨ j = J_refresh_bases false
             ∨ j = J_refresh_ambient_sensors ∨ j = J_refresh_devices)
  ∧ (∀ a' base, (update_mode base ∉ _refresh_bases false a')
                ∧ (update_mode base ∉ _refresh_camera_media a')
                ∧ (update_mode base ∉ _refresh_ambient_sensors a')
                ∧ (update_mode base ∉ _refresh_camera_thumbnails a')).
Proof.
  split; [split|split].
  - unfold enqueued, _initial_refresh. simpl.
    rewrite <- app_assoc, drop_app_length. apply list_elem_of_here.
  - intros base In. apply update_mode_in_refresh_bases.
    split; [reflexivity | exact In].
  - intros ev j Hj. rewrite step_jobs_enqueued in Hj.
    by apply tick_jobs_known in Hj.
  - intros a' base. split; [|split; [|split]].
    + intros H. by apply update_mode_in_refresh_bases in H as [[=] _].
    + unfold _refresh_camera_media. rewrite foldl_snoc_map.
      by apply no_update_mode_in_map.
    + unfold _refresh_ambient_sensors. rewrite foldl_snoc_map.
      by apply no_update_mode_in_map.
    + unfold _refresh_camera_thumbnails. rewrite foldl_snoc_map.
      by apply no_update_mode_in_map.
Qed.
